(** * Secret-Calculator: the calculator screen of [NotesScreen.tsx]

    A shallow embedding of the calculator core of
    [src/client/screens/NotesScreen.tsx]: the secret-code check, the
    expression evaluator (which runs the buffer as the JavaScript function
    body [return <buffer>]) and the button handler [handleButtonPress], with
    the history persisted through [saveHistory] of [src/client/lib/storage.ts];
    then the note and history storage of [storage.ts] and the delete flow of
    the notes list screen. *)

From Stdlib Require Import ZArith List String Ascii Bool Lia.
From Stdlib Require Import Floats.
Import ListNotations.
Open Scope string_scope.

(* ================================================================== *)
(** ** Characters and the regular-expression tests of the handler *)

Module Chars.

Definition is_digit (c : ascii) : bool :=
  let n := nat_of_ascii c in (48 <=? n)%nat && (n <=? 57)%nat.

(** [/[+\-*/]/] as a character class. *)
Definition is_op (c : ascii) : bool :=
  match c with
  | "+"%char | "-"%char | "*"%char | "/"%char => true
  | _ => false
  end.

End Chars.

Module Str.

Definition chars (s : string) : list ascii := list_ascii_of_string s.

(** [/\d/.test(s)]: some character of [s] is a decimal digit. *)
Definition test_digit (s : string) : bool := existsb Chars.is_digit (chars s).

(** [/[+\-*/]/.test(s)]: some character of [s] is an operator. *)
Definition test_op (s : string) : bool := existsb Chars.is_op (chars s).

(** [/[+\-*/]$/.test(s)]: the last character of [s] is an operator. *)
Definition ends_with_op (s : string) : bool :=
  match rev (chars s) with
  | c :: _ => Chars.is_op c
  | [] => false
  end.

(** [s.slice(0, -1)]. *)
Definition drop_last (s : string) : string :=
  substring 0 (String.length s - 1) s.

(** [s.includes(".")]. *)
Definition includes_dot (s : string) : bool := existsb (Ascii.eqb "."%char) (chars s).

(** [s.split(/[+\-*/]/)]: the pieces between operator characters, in order
    (there is always at least one piece; [""] for the empty string). *)
Fixpoint split_ops_aux (cur : list ascii) (l : list ascii) : list (list ascii) :=
  match l with
  | [] => [rev cur]
  | c :: l' => if Chars.is_op c then rev cur :: split_ops_aux [] l'
               else split_ops_aux (c :: cur) l'
  end.

Definition split_ops (s : string) : list string :=
  map string_of_list_ascii (split_ops_aux [] (chars s)).

(** [parts[parts.length - 1]]. *)
Definition last_part (parts : list string) : string := last parts "".

End Str.

(* ================================================================== *)
(** ** Storage records ([storage.ts]) *)

Module HistoryItem.
Record t := mk {
  id : string;
  expression : string;
  result : string;
  timestamp : Z
}.
End HistoryItem.

(** [Date.now().toString()]: the decimal digits of a millisecond count. *)
Fixpoint digits_of_pos (fuel : nat) (p : positive) (acc : string) : string :=
  match fuel with
  | O => acc
  | S f =>
      let q := Z.div (Zpos p) 10 in
      let r := Z.modulo (Zpos p) 10 in
      let acc' := String (ascii_of_nat (48 + Z.to_nat r)) acc in
      match q with
      | Zpos q' => digits_of_pos f q' acc'
      | _ => acc'
      end
  end.

Definition Z_to_string (z : Z) : string :=
  match z with
  | Z0 => "0"
  | Zpos p => digits_of_pos (Pos.size_nat p) p ""
  | Zneg p => "-" ++ digits_of_pos (Pos.size_nat p) p ""
  end.

(* ================================================================== *)
(** ** The calculator screen state and its button handler *)

(** [const SECRET_CODE = "69/67"]. *)
Definition SECRET_CODE : string := "69/67".

(** [checkSecretCode]: [expr === SECRET_CODE]. *)
Definition checkSecretCode (expr : string) : bool := String.eqb expr SECRET_CODE.

(** [BUTTON_LAYOUT]: the values of the grid's buttons (their [type] only
    chooses a colour). *)
Definition BUTTON_LAYOUT : list (string * string) :=
  [("C", "function"); ("DEL", "function"); ("/", "operator"); ("*", "operator");
   ("7", "number"); ("8", "number"); ("9", "number"); ("-", "operator");
   ("4", "number"); ("5", "number"); ("6", "number"); ("+", "operator");
   ("1", "number"); ("2", "number"); ("3", "number"); ("=", "equals");
   ("0", "number"); (".", "number")].

Definition is_button (v : string) : bool :=
  existsb (fun b => String.eqb (fst b) v) BUTTON_LAYOUT.

(** The component's state: the four [useState] hooks, the persisted history
    (the value last written by [saveHistory]) and the routes passed to
    [navigation.navigate], newest first. *)
Record CalcState := mkState {
  expression : string;
  result : string;
  history : list HistoryItem.t;
  justCalculated : bool;
  stored_history : list HistoryItem.t;
  routes : list string
}.

(** The screen once mounted: [expression] is ["0"], [result] is [""], and
    the [loadHistory] effect has put the saved history in [history]. *)
Definition mount (saved : list HistoryItem.t) : CalcState :=
  mkState "0" "" saved false saved [].

(** The two [Date.now()] reads of an ["="] press that records a result, in
    program order: [id_read] for [id: Date.now().toString()] (line 501) and
    [ts_read] for [timestamp: Date.now()] (line 504). The clock may advance
    between them. *)
Record instants := Instants { id_read : Z; ts_read : Z }.

Section Handler.

(** The evaluator called on [=]. It is the JavaScript evaluation modelled
    below ([JsEval.evaluateExpression]); [None] stands for an input outside
    the modelled part of JavaScript. *)
Variable evaluateExpression : string -> option string.

(** The digit / operator / ["."] branch: the [setExpression] updater, with
    [justCalculated] and [result] read from the current render. Returns the
    new buffer and the new [justCalculated]. *)
Definition input_update (prev result : string) (justCalculated : bool) (value : string)
  : string * bool :=
  if justCalculated && Str.test_digit value then (value, false)
  else if justCalculated && Str.test_op value then (result ++ value, false)
  else
    let e :=
      if String.eqb prev "0" && Str.test_digit value then value
      else if Str.ends_with_op prev && Str.test_op value then Str.drop_last prev ++ value
      else if String.eqb value "." &&
              Str.includes_dot (Str.last_part (Str.split_ops prev)) then prev
      else prev ++ value in
    (e, false).

(** The [=] branch once the secret code is ruled out: evaluate, record a
    successful result in the history (newest first, at most 10, saved), show
    the result and set [justCalculated]. *)
Definition evaluate_and_record (s : CalcState) (now : instants) : option CalcState :=
  match evaluateExpression (expression s) with
  | None => None
  | Some calcResult =>
      if negb (String.eqb calcResult "Error") then
        let item := HistoryItem.mk (Z_to_string (id_read now)) (expression s) calcResult
                                   (ts_read now) in
        let updatedHistory := firstn 10 (item :: history s) in
        Some (mkState (expression s) calcResult updatedHistory true updatedHistory
                      (routes s))
      else
        Some (mkState (expression s) calcResult (history s) true (stored_history s)
                      (routes s))
  end.

(** [handleButtonPress(value)], with [now] the clock readings of the press. *)
Definition handleButtonPress (s : CalcState) (now : instants) (value : string) : option CalcState :=
  if String.eqb value "C" then
    Some (mkState "0" "" [] false [] (routes s))
  else if String.eqb value "DEL" then
    let prev := expression s in
    let e := if (String.length prev <=? 1)%nat then "0" else Str.drop_last prev in
    Some (mkState e (result s) (history s) false (stored_history s) (routes s))
  else if String.eqb value "=" then
    if checkSecretCode (expression s) then
      Some (mkState "0" "" (history s) (justCalculated s) (stored_history s)
                    ("Notes" :: routes s))
    else evaluate_and_record s now
  else
    let '(e, jc) := input_update (expression s) (result s) (justCalculated s) value in
    Some (mkState e (result s) (history s) jc (stored_history s) (routes s)).

(** A sequence of presses, each with its clock readings. *)
Fixpoint run (s : CalcState) (presses : list (instants * string)) : option CalcState :=
  match presses with
  | [] => Some s
  | (now, v) :: rest =>
      match handleButtonPress s now v with
      | Some s' => run s' rest
      | None => None
      end
  end.

End Handler.

(* ================================================================== *)
(** ** JavaScript numbers (IEEE-754 binary64)

    JavaScript numbers are binary64 values; Rocq's primitive [float] is
    binary64 with round-to-nearest-even arithmetic, so [+ - * /] of the
    evaluated expression are [PrimFloat.add], [sub], [mul], [div]. This
    module adds the conversions the evaluator needs: rounding an exact
    rational to the nearest binary64 value (numeric literals, [Math.round]),
    and [Number::toString] (what [String(rounded)] prints). *)

Module JsNumber.

Local Open Scope Z_scope.

(** [n / d >= 2^t] for [n, d > 0]. *)
Definition ge_pow2 (n d t : Z) : bool :=
  if 0 <=? t then d * 2 ^ t <=? n else d <=? n * 2 ^ (- t).

(** [floor (log2 (n / d))] for [n, d > 0]. *)
Definition log2_ratio (n d : Z) : Z :=
  let t := Z.log2 n - Z.log2 d in
  if ge_pow2 n d t then t else t - 1.

(** The binary64 value nearest to [(-1)^neg * n / d] ([n >= 0], [d > 0]),
    ties to even, infinite beyond the largest finite value. *)
Definition round_ratio (neg : bool) (n d : Z) : float :=
  if n <=? 0 then (if neg then neg_zero else zero)
  else
    let e := Z.max (log2_ratio n d - 52) (-1074) in
    let num := if 0 <=? e then n else n * 2 ^ (- e) in
    let den := if 0 <=? e then d * 2 ^ e else d in
    let q := num / den in
    let r := num mod den in
    let q' := if (den <? 2 * r) || ((2 * r =? den) && Z.odd q) then q + 1 else q in
    if q' <=? 0 then (if neg then neg_zero else zero)
    else if (971 <? e) || ((e =? 971) && (q' =? 2 ^ 53)) then
      (if neg then neg_infinity else infinity)
    else SF2Prim (S754_finite neg (Z.to_pos q') e).

(** The exact value of a finite binary64 as a sign, numerator and
    denominator. *)
Definition exact (m : positive) (e : Z) : Z * Z :=
  if 0 <=? e then (Zpos m * 2 ^ e, 1) else (Zpos m, 2 ^ (- e)).

(** [Math.round(x)]: the integral number closest to [x], ties toward
    [+Infinity]; [NaN], infinities, zeros and integral numbers unchanged,
    [-0.5 <= x < 0] gives [-0]. *)
Definition math_round (x : float) : float :=
  match Prim2SF x with
  | S754_finite s m e =>
      if 0 <=? e then x
      else
        let v := if s then - Zpos m else Zpos m in
        let r := (2 * v + 2 ^ (- e)) / 2 ^ (- e + 1) in
        if r =? 0 then (if s then neg_zero else zero)
        else round_ratio (r <? 0) (Z.abs r) 1
  | _ => x
  end.

(** Decimal digits of a positive integer. *)
Definition digits (z : Z) : string := Z_to_string z.

(** [n / d >= 10^t] for [n, d > 0]. *)
Definition ge_pow10 (n d t : Z) : bool :=
  if 0 <=? t then d * 10 ^ t <=? n else d <=? n * 10 ^ (- t).

(** [floor (log10 (n / d))] for [n, d > 0]. *)
Definition log10_ratio (n d : Z) : Z :=
  let t := Z.of_nat (String.length (digits n)) - Z.of_nat (String.length (digits d)) in
  if ge_pow10 n d t then t else t - 1.

(** The decimal [c * 10^(n-k)] read back as a binary64 value. *)
Definition decimal_value (c n k : Z) : float :=
  if 0 <=? n - k then round_ratio false (c * 10 ^ (n - k)) 1
  else round_ratio false c (10 ^ (k - n)).

(** Step 5 of [Number::toString] for the positive value [num / den] equal to
    the binary64 [x]: for [k = 1, 2, ...] the [k]-digit decimals next to the
    value are tried and the first length at which one reads back as [x] is
    taken; if both neighbours do, the nearer, ties to even. Returns [(s, n, k)]
    with [10^(k-1) <= s < 10^k] and [s * 10^(n-k)] the chosen decimal. *)
Fixpoint shortest (fuel : nat) (k : Z) (x : float) (num den n : Z) : Z * Z * Z :=
  let sn := if 0 <=? k - n then num * 10 ^ (k - n) else num in
  let sd := if 0 <=? k - n then den else den * 10 ^ (n - k) in
  let q := sn / sd in
  let r := sn mod sd in
  let lo_ok := PrimFloat.eqb (decimal_value q n k) x in
  let hi_ok := (0 <? r) && PrimFloat.eqb (decimal_value (q + 1) n k) x in
  let pick :=
    if lo_ok && hi_ok then
      (if (2 * r <? sd) || ((2 * r =? sd) && Z.even q) then Some q else Some (q + 1))
    else if lo_ok then Some q
    else if hi_ok then Some (q + 1)
    else None in
  match pick, fuel with
  | Some c, _ =>
      if c =? 10 ^ k then (10 ^ (k - 1), n + 1, k) else (c, n, k)
  | None, O => (q, n, k)
  | None, S f => shortest f (k + 1) x num den n
  end.

Fixpoint zeros (n : nat) : string :=
  match n with O => "" | S n' => "0" ++ zeros n' end.

(** Steps 6 to 10 of [Number::toString]: the layout of [s * 10^(n-k)]. *)
Definition layout (s n k : Z) : string :=
  let ds := digits s in
  if (k <=? n) && (n <=? 21) then ds ++ zeros (Z.to_nat (n - k))
  else if (0 <? n) && (n <=? 21) then
    substring 0 (Z.to_nat n) ds ++ "." ++ substring (Z.to_nat n) (Z.to_nat (k - n)) ds
  else if (-6 <? n) && (n <=? 0) then "0." ++ zeros (Z.to_nat (- n)) ++ ds
  else
    let ex := n - 1 in
    let sign := if ex <? 0 then "-" else "+" in
    let tail := "e" ++ sign ++ digits (Z.abs ex) in
    if k =? 1 then ds ++ tail
    else substring 0 1 ds ++ "." ++ substring 1 (Z.to_nat (k - 1)) ds ++ tail.

(** [Number::toString(x)] in radix 10, i.e. [String(x)] for a number. *)
Definition to_string (x : float) : string :=
  match Prim2SF x with
  | S754_nan => "NaN"
  | S754_zero _ => "0"
  | S754_infinity s => if s then "-Infinity" else "Infinity"
  | S754_finite s m e =>
      let '(num, den) := exact m e in
      let n := log10_ratio num den + 1 in
      let '(sn, k) := shortest 17 1 (SF2Prim (S754_finite false m e)) num den n in
      let '(s0, n0) := sn in
      (if s then "-" else "") ++ layout s0 n0 k
  end.

End JsNumber.

(* ================================================================== *)
(** ** [evaluateExpression]

    The source evaluates [new Function(`return ${cleanExpr}`)()] after a
    character whitelist. This module models that evaluation for the strings
    the whitelist lets through: a JavaScript lexer and expression parser for
    the tokens those characters can form (numeric literals, including the
    legacy octal ones of sloppy-mode code, [+ - * /], parentheses, comments,
    white space and line terminators), with automatic semicolon insertion
    after [return] and between statements. A JavaScript string is given by
    its UTF-8 encoding and read as a list of code points.

    Four constructs whose behaviour the model does not fix are reported as
    [None] ("outside the model") instead: a regular-expression literal, [**]
    (its value is implementation-approximated), [++] / [--], and [...]. *)

Module JsEval.

Local Open Scope Z_scope.

(** Code points of the UTF-8 encoded string; a byte that starts no
    well-formed sequence reads as U+FFFD. *)
Definition cont (b : ascii) : option Z :=
  let n := Z.of_nat (nat_of_ascii b) in
  if (128 <=? n) && (n <=? 191) then Some (n - 128) else None.

Fixpoint utf8_decode (l : list ascii) : list Z :=
  match l with
  | [] => []
  | b0 :: r =>
      let n0 := Z.of_nat (nat_of_ascii b0) in
      if n0 <? 128 then n0 :: utf8_decode r
      else if (194 <=? n0) && (n0 <=? 223) then
        match r with
        | b1 :: r1 =>
            match cont b1 with
            | Some c1 => ((n0 - 192) * 64 + c1) :: utf8_decode r1
            | None => 65533 :: utf8_decode r
            end
        | [] => [65533]
        end
      else if (224 <=? n0) && (n0 <=? 239) then
        match r with
        | b1 :: b2 :: r2 =>
            match cont b1, cont b2 with
            | Some c1, Some c2 => ((n0 - 224) * 4096 + c1 * 64 + c2) :: utf8_decode r2
            | _, _ => 65533 :: utf8_decode r
            end
        | _ => 65533 :: utf8_decode r
        end
      else if (240 <=? n0) && (n0 <=? 244) then
        match r with
        | b1 :: b2 :: b3 :: r3 =>
            match cont b1, cont b2, cont b3 with
            | Some c1, Some c2, Some c3 =>
                ((n0 - 240) * 262144 + c1 * 4096 + c2 * 64 + c3) :: utf8_decode r3
            | _, _, _ => 65533 :: utf8_decode r
            end
        | _ => 65533 :: utf8_decode r
        end
      else 65533 :: utf8_decode r
  end.

Definition code_points (s : string) : list Z := utf8_decode (list_ascii_of_string s).

(** [.replace(/×/g, "*").replace(/÷/g, "/")]. *)
Definition normalize (cs : list Z) : list Z :=
  map (fun c => if c =? 215 then 42 else if c =? 247 then 47 else c) cs.

(** JavaScript's line terminators and white space (together, RegExp [\s]). *)
Definition is_line_terminator (c : Z) : bool :=
  (c =? 10) || (c =? 13) || (c =? 8232) || (c =? 8233).

Definition is_white_space (c : Z) : bool :=
  (c =? 9) || (c =? 11) || (c =? 12) || (c =? 32) || (c =? 160) || (c =? 5760)
  || ((8192 <=? c) && (c <=? 8202)) || (c =? 8239) || (c =? 8287) || (c =? 12288)
  || (c =? 65279).

Definition is_dec_digit (c : Z) : bool := (48 <=? c) && (c <=? 57).
Definition is_oct_digit (c : Z) : bool := (48 <=? c) && (c <=? 55).

(** One character of [[\d+\-*/.\s()]]. *)
Definition allowed (c : Z) : bool :=
  is_dec_digit c || (c =? 43) || (c =? 45) || (c =? 42) || (c =? 47) || (c =? 46)
  || is_white_space c || is_line_terminator c || (c =? 40) || (c =? 41).

(** [/^[\d+\-*/.\s()]+$/.test(cleanExpr)]. *)
Definition whitelisted (cs : list Z) : bool :=
  match cs with [] => false | _ => forallb allowed cs end.

(** *** Lexer *)

Inductive token :=
| TNum (v : float)
| TPlus | TMinus | TStar | TSlash | TLParen | TRParen.

(** Tokens, each with whether a line terminator precedes it. *)
Inductive lexed :=
| LexOk (ts : list (bool * token))
| LexSyntaxError
| LexUnmodelled.

Fixpoint take_digits (l : list Z) : list Z * list Z :=
  match l with
  | c :: r => if is_dec_digit c then let '(ds, r') := take_digits r in (c :: ds, r')
              else ([], l)
  | [] => ([], [])
  end.

Definition digits_value (base : Z) (ds : list Z) : Z :=
  fold_left (fun acc d => acc * base + (d - 48)) ds 0.

(** The value of the decimal literal [ids.fs]. *)
Definition decimal_literal (ids fs : list Z) : float :=
  JsNumber.round_ratio false (digits_value 10 (ids ++ fs)) (10 ^ Z.of_nat (List.length fs)).

(** A [DecimalIntegerLiteral] [ids] with its optional [. DecimalDigits?]. *)
Definition with_fraction (ids : list Z) (r : list Z) : float * list Z :=
  match r with
  | c :: r' =>
      if c =? 46 then let '(fs, r'') := take_digits r' in (decimal_literal ids fs, r'')
      else (decimal_literal ids [], r)
  | [] => (decimal_literal ids [], r)
  end.

(** A [NumericLiteral] starting at a decimal digit: [0], a
    [LegacyOctalIntegerLiteral] ([0] then octal digits only: no fraction),
    a [NonOctalDecimalIntegerLiteral] ([0] then digits with an [8] or [9]),
    or a decimal literal; the longest one. *)
Definition scan_number (l : list Z) : float * list Z :=
  match l with
  | c :: r =>
      if c =? 48 then
        let '(ds, r') := take_digits r in
        match ds with
        | [] => with_fraction [48] r
        | _ => if forallb is_oct_digit ds
               then (JsNumber.round_ratio false (digits_value 8 ds) 1, r')
               else with_fraction (48 :: ds) r'
        end
      else let '(ds, r') := take_digits l in with_fraction ds r'
  | [] => (zero, [])
  end.

(** The rest of a [//] comment (the line terminator is kept). *)
Fixpoint skip_line (l : list Z) : list Z :=
  match l with
  | c :: r => if is_line_terminator c then l else skip_line r
  | [] => []
  end.

(** The rest of a [/*] comment after its [*/], and whether it contained a
    line terminator; [None] when it is never closed. *)
Fixpoint skip_block (seen_lt : bool) (l : list Z) : option (bool * list Z) :=
  match l with
  | c :: r =>
      if (c =? 42) then
        match r with
        | d :: r' => if d =? 47 then Some (seen_lt, r') else skip_block seen_lt r
        | [] => None
        end
      else skip_block (seen_lt || is_line_terminator c) r
  | [] => None
  end.

Definition push (nl : bool) (t : token) (k : lexed) : lexed :=
  match k with LexOk ts => LexOk ((nl, t) :: ts) | e => e end.

Definition next_is (d : Z) (r : list Z) : bool :=
  match r with c :: _ => c =? d | [] => false end.

(** A [.] that starts neither a numeric literal nor [...] is the punctuator
    of [MemberExpression . IdentifierName]; no identifier can follow it, so it
    is a syntax error wherever it stands.

    [div_ok]: the previous token ends an operand, so [/] divides (otherwise
    it would start a regular-expression literal); [nl]: a line terminator
    was met since the previous token. *)
Fixpoint lex_aux (fuel : nat) (div_ok nl : bool) (l : list Z) : lexed :=
  match fuel with
  | O => LexUnmodelled
  | S f =>
  match l with
  | [] => LexOk []
  | c :: r =>
      if is_line_terminator c then lex_aux f div_ok true r
      else if is_white_space c then lex_aux f div_ok nl r
      else if c =? 47 then
        if next_is 47 r then lex_aux f div_ok nl (skip_line r)
        else if next_is 42 r then
          match skip_block false (tl r) with
          | Some (lt, r') => lex_aux f div_ok (nl || lt) r'
          | None => LexSyntaxError
          end
        else if div_ok then push nl TSlash (lex_aux f false false r)
        else LexUnmodelled
      else if c =? 42 then
        if next_is 42 r then LexUnmodelled else push nl TStar (lex_aux f false false r)
      else if c =? 43 then
        if next_is 43 r then LexUnmodelled else push nl TPlus (lex_aux f false false r)
      else if c =? 45 then
        if next_is 45 r then LexUnmodelled else push nl TMinus (lex_aux f false false r)
      else if c =? 40 then push nl TLParen (lex_aux f false false r)
      else if c =? 41 then push nl TRParen (lex_aux f true false r)
      else if c =? 46 then
        match r with
        | d :: r' =>
            if is_dec_digit d then
              let '(fs, r'') := take_digits r in
              push nl (TNum (decimal_literal [] fs)) (lex_aux f true false r'')
            else if (d =? 46) && next_is 46 r' then LexUnmodelled
            else LexSyntaxError
        | [] => LexSyntaxError
        end
      else if is_dec_digit c then
        let '(v, r') := scan_number l in push nl (TNum v) (lex_aux f true false r')
      else LexUnmodelled
  end
  end.

Definition lex (l : list Z) : lexed := lex_aux (S (List.length l)) false false l.

(** *** Parser and evaluation of the function body *)

(** The value of an expression: a number, or a thrown exception. With no
    identifiers in reach, every call throws a [TypeError] (a number is not
    callable) and nothing else throws. *)
Inductive jsval := JNum (f : float) | JThrow.

Inductive parsed :=
| POk (v : jsval) (rest : list (bool * token))
| PSyntaxError
| POutOfFuel.

Definition binop (op : float -> float -> float) (a b : jsval) : jsval :=
  match a, b with JNum x, JNum y => JNum (op x y) | _, _ => JThrow end.

Definition unop (op : float -> float) (a : jsval) : jsval :=
  match a with JNum x => JNum (op x) | JThrow => JThrow end.

(** The expression grammar the tokens can form, evaluated as it is parsed
    (operands left to right): [AdditiveExpression] over
    [MultiplicativeExpression] over [UnaryExpression] ([+], [-]) over
    [CallExpression] ([PrimaryExpression] then [Arguments]) over
    [PrimaryExpression] (a numeric literal or a parenthesized expression).
    [fuel] bounds the recursion depth. *)
Fixpoint p_expr (fuel : nat) (ts : list (bool * token)) : parsed :=
  match fuel with
  | O => POutOfFuel
  | S f => match p_term f ts with POk v r => p_expr_rest f v r | o => o end
  end
with p_expr_rest (fuel : nat) (acc : jsval) (ts : list (bool * token)) : parsed :=
  match fuel with
  | O => POutOfFuel
  | S f =>
      match ts with
      | (_, TPlus) :: r =>
          match p_term f r with POk v r' => p_expr_rest f (binop PrimFloat.add acc v) r' | o => o end
      | (_, TMinus) :: r =>
          match p_term f r with POk v r' => p_expr_rest f (binop PrimFloat.sub acc v) r' | o => o end
      | _ => POk acc ts
      end
  end
with p_term (fuel : nat) (ts : list (bool * token)) : parsed :=
  match fuel with
  | O => POutOfFuel
  | S f => match p_unary f ts with POk v r => p_term_rest f v r | o => o end
  end
with p_term_rest (fuel : nat) (acc : jsval) (ts : list (bool * token)) : parsed :=
  match fuel with
  | O => POutOfFuel
  | S f =>
      match ts with
      | (_, TStar) :: r =>
          match p_unary f r with POk v r' => p_term_rest f (binop PrimFloat.mul acc v) r' | o => o end
      | (_, TSlash) :: r =>
          match p_unary f r with POk v r' => p_term_rest f (binop PrimFloat.div acc v) r' | o => o end
      | _ => POk acc ts
      end
  end
with p_unary (fuel : nat) (ts : list (bool * token)) : parsed :=
  match fuel with
  | O => POutOfFuel
  | S f =>
      match ts with
      | (_, TPlus) :: r => match p_unary f r with POk v r' => POk (unop (fun x => x) v) r' | o => o end
      | (_, TMinus) :: r => match p_unary f r with POk v r' => POk (unop PrimFloat.opp v) r' | o => o end
      | _ => match p_primary f ts with POk v r => p_call_rest f v r | o => o end
      end
  end
with p_call_rest (fuel : nat) (callee : jsval) (ts : list (bool * token)) : parsed :=
  match fuel with
  | O => POutOfFuel
  | S f =>
      match ts with
      | (_, TLParen) :: (_, TRParen) :: r => p_call_rest f JThrow r
      | (_, TLParen) :: r =>
          match p_expr f r with
          | POk _ ((_, TRParen) :: r') => p_call_rest f JThrow r'
          | POk _ _ => PSyntaxError
          | o => o
          end
      | _ => POk callee ts
      end
  end
with p_primary (fuel : nat) (ts : list (bool * token)) : parsed :=
  match fuel with
  | O => POutOfFuel
  | S f =>
      match ts with
      | (_, TNum v) :: r => POk (JNum v) r
      | (_, TLParen) :: r =>
          match p_expr f r with
          | POk v ((_, TRParen) :: r') => POk v r'
          | POk _ _ => PSyntaxError
          | o => o
          end
      | _ => PSyntaxError
      end
  end.

Inductive stmts_result := SOk | SSyntaxError | SOutOfFuel.

(** The statements after the [return] statement: expression statements, each
    ended by the end of the body or (automatic semicolon insertion) by a line
    terminator before the next token. They are parsed, never run. *)
Fixpoint statements (fuel : nat) (ts : list (bool * token)) : stmts_result :=
  match fuel with
  | O => SOutOfFuel
  | S f =>
      match ts with
      | [] => SOk
      | _ =>
          match p_expr fuel ts with
          | POk _ [] => SOk
          | POk _ ((true, t) :: r) => statements f ((true, t) :: r)
          | POk _ _ => SSyntaxError
          | PSyntaxError => SSyntaxError
          | POutOfFuel => SOutOfFuel
          end
      end
  end.

(** How the call of the function [return <tokens>] completes. *)
Inductive completion :=
| RetNum (f : float)
| RetUndefined
| Throws
| BodySyntaxError
| BodyUnmodelled.

Definition body_fuel (ts : list (bool * token)) : nat := 8 * (List.length ts + 1).

Definition after_return (fuel : nat) (rest : list (bool * token)) : stmts_result :=
  match rest with
  | [] => SOk
  | (true, _) :: _ => statements fuel rest
  | (false, _) :: _ => SSyntaxError
  end.

(** [return [no LineTerminator here] Expression?] followed by the other
    statements of the body. *)
Definition run_body (ts : list (bool * token)) : completion :=
  let fuel := body_fuel ts in
  match ts with
  | [] => RetUndefined
  | (true, _) :: _ =>
      match statements fuel ts with
      | SOk => RetUndefined
      | SSyntaxError => BodySyntaxError
      | SOutOfFuel => BodyUnmodelled
      end
  | (false, _) :: _ =>
      match p_expr fuel ts with
      | POk v rest =>
          match after_return fuel rest with
          | SOk => match v with JNum f => RetNum f | JThrow => Throws end
          | SSyntaxError => BodySyntaxError
          | SOutOfFuel => BodyUnmodelled
          end
      | PSyntaxError => BodySyntaxError
      | POutOfFuel => BodyUnmodelled
      end
  end.

(** [new Function(`return ${cleanExpr}`)()], for a whitelisted [cleanExpr]:
    [None] outside the model. *)
Definition js_call (cleanExpr : list Z) : option completion :=
  match lex cleanExpr with
  | LexUnmodelled => None
  | LexSyntaxError => Some BodySyntaxError
  | LexOk ts =>
      match run_body ts with
      | BodyUnmodelled => None
      | c => Some c
      end
  end.

Definition billion : float := JsNumber.round_ratio false 1000000000 1.

(** [const rounded = Math.round(result * 1000000000) / 1000000000;
     return String(rounded);] *)
Definition format_result (result : float) : string :=
  JsNumber.to_string (PrimFloat.div (JsNumber.math_round (PrimFloat.mul result billion)) billion).

(** [evaluateExpression]; every path that throws, or whose result is not a
    finite number ([isFinite(undefined)] is false), gives ["Error"]. *)
Definition evaluateExpression (expr : string) : option string :=
  let cleanExpr := normalize (code_points expr) in
  if negb (whitelisted cleanExpr) then Some "Error"
  else
    match js_call cleanExpr with
    | None => None
    | Some (RetNum result) =>
        if PrimFloat.is_finite result then Some (format_result result) else Some "Error"
    | Some _ => Some "Error"
    end.

End JsEval.

(* ================================================================== *)
(** ** The specification's notions *)

Module Spec.

(** The successful evaluations of a run, oldest first: each [=] press whose
    buffer is not the secret code and whose evaluation is not ["Error"], as
    the entry [(id, expression, result, timestamp)] it is to leave. *)
Fixpoint recorded (ev : string -> option string) (s : CalcState)
         (presses : list (instants * string)) : list HistoryItem.t :=
  match presses with
  | [] => []
  | (now, v) :: rest =>
      let here :=
        if String.eqb v "=" && negb (checkSecretCode (expression s)) then
          match ev (expression s) with
          | Some r => if String.eqb r "Error" then []
                      else [HistoryItem.mk (Z_to_string (id_read now)) (expression s) r (ts_read now)]
          | None => []
          end
        else [] in
      match handleButtonPress ev s now v with
      | Some s' => here ++ recorded ev s' rest
      | None => here
      end
  end.

(** No press of [C] in the sequence. *)
Definition no_clear (presses : list (instants * string)) : bool :=
  forallb (fun p => negb (String.eqb (snd p) "C")) presses.

(** The buffer alphabet [{0-9, '.', '+', '-', '*', '/'}]. *)
Definition in_alphabet (c : ascii) : bool :=
  Chars.is_digit c || Ascii.eqb c "."%char || Chars.is_op c.

Fixpoint no_double_op (l : list ascii) : bool :=
  match l with
  | a :: ((b :: _) as r) => negb (Chars.is_op a && Chars.is_op b) && no_double_op r
  | _ => true
  end.

(** The buffer invariant of the data model: non-empty, in the alphabet, no
    operator first, no two operators in a row. *)
Definition chars_ok (l : list ascii) : bool :=
  match l with
  | [] => false
  | c :: _ => forallb in_alphabet l && negb (Chars.is_op c) && no_double_op l
  end.

Definition buffer_ok (b : string) : bool := chars_ok (Str.chars b).

(** Every operator key pressed while [justCalculated] is set, i.e. right
    after a non-secret [=] (the press that chains on the displayed result),
    follows a displayed result that is itself a valid buffer and does not end
    with an operator: a plain result such as ["5"] or ["0.5"], not a negative
    one, ["Error"], or one in exponent notation. *)
Fixpoint chains_on_valid_results (ev : string -> option string) (s : CalcState)
         (presses : list (instants * string)) : bool :=
  match presses with
  | [] => true
  | (now, v) :: rest =>
      (negb (justCalculated s && Str.test_op v) ||
       (buffer_ok (result s) && negb (Str.ends_with_op (result s)))) &&
      match handleButtonPress ev s now v with
      | Some s' => chains_on_valid_results ev s' rest
      | None => true
      end
  end.

(** The operand since the last operator: the longest operator-free suffix. *)
Definition last_operand (b : string) : string :=
  string_of_list_ascii
    (rev (List.fold_right (fun c acc => if Chars.is_op c then [] else c :: acc) []
            (rev (Str.chars b)))).

(** *** Arithmetic expressions over numerals and [+ - * /]

    A well-formed expression is a numeral followed by operator-numeral
    pairs. A numeral is a decimal integer part (["0"] or digits not starting
    with [0]) with an optional [.] and fraction digits; its value is that of
    the JavaScript numeric literal, i.e. the binary64 value nearest to it. *)

Inductive arith_op := Add | Sub | Mul | Div.

Definition op_char (o : arith_op) : ascii :=
  match o with Add => "+"%char | Sub => "-"%char | Mul => "*"%char | Div => "/"%char end.

Definition apply_op (o : arith_op) (x y : float) : float :=
  match o with
  | Add => PrimFloat.add x y | Sub => PrimFloat.sub x y
  | Mul => PrimFloat.mul x y | Div => PrimFloat.div x y
  end.

Definition is_mul_op (o : arith_op) : bool :=
  match o with Mul | Div => true | Add | Sub => false end.

Record numeral := Numeral { int_part : list ascii; frac_part : option (list ascii) }.

Definition numeral_chars (n : numeral) : list ascii :=
  int_part n ++ match frac_part n with None => [] | Some fs => "."%char :: fs end.

Definition numeral_ok (n : numeral) : bool :=
  match int_part n with
  | [] => false
  | c :: r =>
      forallb Chars.is_digit (c :: r)
      && (negb (Ascii.eqb c "0"%char) || match r with [] => true | _ => false end)
      && match frac_part n with None => true | Some fs => forallb Chars.is_digit fs end
  end.

Definition code (a : ascii) : Z := Z.of_nat (nat_of_ascii a).

Definition numeral_value (n : numeral) : float :=
  JsEval.decimal_literal (map code (int_part n))
    (match frac_part n with None => [] | Some fs => map code fs end).

Definition render (first : numeral) (rest : list (arith_op * numeral)) : string :=
  string_of_list_ascii
    (numeral_chars first ++ flat_map (fun p => op_char (fst p) :: numeral_chars (snd p)) rest).

(** Two-level precedence, left to right within a level: [term] is the
    product being built, [sum] the pending additive operator and the value
    of the sum before it. *)
Definition close (sum : option (arith_op * float)) (term : float) : float :=
  match sum with None => term | Some (o, acc) => apply_op o acc term end.

Fixpoint prec_eval (sum : option (arith_op * float)) (term : float)
         (rest : list (arith_op * float)) : float :=
  match rest with
  | [] => close sum term
  | (o, v) :: r =>
      if is_mul_op o then prec_eval sum (apply_op o term v) r
      else prec_eval (Some (o, close sum term)) v r
  end.

(** The value [evaluateExpression] is to give for [first rest]. *)
Definition expected_result (first : numeral) (rest : list (arith_op * numeral)) : string :=
  let r := prec_eval None (numeral_value first)
             (map (fun p => (fst p, numeral_value (snd p))) rest) in
  if PrimFloat.is_finite r then JsEval.format_result r else "Error".

End Spec.

(** The digit and operator keys of the grid. *)
Definition digit_buttons : list string := ["0"; "1"; "2"; "3"; "4"; "5"; "6"; "7"; "8"; "9"].
Definition operator_buttons : list string := ["+"; "-"; "*"; "/"].

(** Strings without the letter [E] (every string [Number::toString]
    prints, unlike ["Error"]). *)
Definition no_E (s : string) : bool :=
  forallb (fun c => negb (Ascii.eqb c "E"%char)) (Str.chars s).

(** The token list of [rest] after the first numeral. *)
Definition op_token (o : Spec.arith_op) : JsEval.token :=
  match o with
  | Spec.Add => JsEval.TPlus | Spec.Sub => JsEval.TMinus
  | Spec.Mul => JsEval.TStar | Spec.Div => JsEval.TSlash
  end.

Definition rest_tokens (rest : list (Spec.arith_op * float)) : list (bool * JsEval.token) :=
  flat_map (fun p => [(false, op_token (fst p)); (false, JsEval.TNum (snd p))]) rest.

(** The leading run of [*] and [/] of [rest], folded onto [acc]. *)
Fixpoint mul_run (acc : float) (rest : list (Spec.arith_op * float))
  : float * list (Spec.arith_op * float) :=
  match rest with
  | (o, v) :: r => if Spec.is_mul_op o then mul_run (Spec.apply_op o acc v) r else (acc, rest)
  | [] => (acc, [])
  end.

(** The code points of a numeral and of the operator-numeral pairs after
    the first one. *)
Definition numeral_codes (n : Spec.numeral) : list Z := map Spec.code (Spec.numeral_chars n).

Definition rest_codes (rest : list (Spec.arith_op * Spec.numeral)) : list Z :=
  flat_map (fun p => Spec.code (Spec.op_char (fst p)) :: numeral_codes (snd p)) rest.

(** What may follow a numeral: nothing, or an operator. *)
Definition after_numeral (x : list Z) : Prop :=
  match x with [] => True | c :: _ => (c = 43)%Z \/ (c = 45)%Z \/ (c = 42)%Z \/ (c = 47)%Z end.

(** Empty, or starting with [+] or [-]. *)
Definition additive_head (vs : list (Spec.arith_op * float)) : bool :=
  match vs with [] => true | (o, _) :: _ => negb (Spec.is_mul_op o) end.

(** The values of the operator-numeral pairs. *)
Definition rest_values (rest : list (Spec.arith_op * Spec.numeral)) : list (Spec.arith_op * float) :=
  map (fun p => (fst p, Spec.numeral_value (snd p))) rest.

(** One step of [Spec.last_operand]'s fold. *)
Definition op_suffix_step (c : ascii) (acc : list ascii) : list ascii :=
  if Chars.is_op c then [] else c :: acc.

(* ================================================================== *)
(** ** Persistent storage ([storage.ts]) and the notes list screen *)

(** [interface Note]. *)
Module Note.
Record t := mk {
  id : string;
  content : string;
  timestamp : Z
}.
End Note.

Module Storage.

(** [AsyncStorage] under the two keys of [STORAGE_KEYS]
    (["@calculator_notes"] and ["@calculator_history"]). A key holds the
    string [JSON.stringify] made of an array of notes or of history items;
    [JSON.parse] gives back an equal array (its fields are strings and
    integer millisecond counts), so the stored text is represented by the
    array it encodes, and [None] is a missing key ([getItem] gives [null]).

    Every [AsyncStorage] call may reject; its argument [ok] says whether it
    resolves ([true]) or rejects ([false]), and a rejected write changes
    nothing. *)
Record store := mkStore {
  notes_item : option (list Note.t);
  history_item : option (list HistoryItem.t)
}.

(** [saveNotes]: [setItem(NOTES, JSON.stringify(notes))], a rejection
    caught and logged. *)
Definition saveNotes (ok : bool) (notes : list Note.t) (st : store) : store :=
  if ok then mkStore (Some notes) (history_item st) else st.

(** [loadNotes]: [[]] for a missing key or a rejected read. *)
Definition loadNotes (ok : bool) (st : store) : list Note.t :=
  if ok then match notes_item st with None => [] | Some l => l end else [].

(** [saveHistory]. *)
Definition saveHistory (ok : bool) (history : list HistoryItem.t) (st : store) : store :=
  if ok then mkStore (notes_item st) (Some history) else st.

(** [loadHistory]. *)
Definition loadHistory (ok : bool) (st : store) : list HistoryItem.t :=
  if ok then match history_item st with None => [] | Some l => l end else [].

(** [addNote(content)]: [get_ok] and [set_ok] are the outcomes of the read
    in [loadNotes] and of the write in [saveNotes]; [now_id] and [now_ts]
    are the two [Date.now()] reads and [rnd] is
    [Math.random().toString(36).substring(2, 9)]. *)
Definition addNote (get_ok set_ok : bool) (content : string) (now_id : Z) (rnd : string)
    (now_ts : Z) (st : store) : Note.t * store :=
  let notes := loadNotes get_ok st in
  let newNote := Note.mk (Z_to_string now_id ++ rnd) content now_ts in
  let updatedNotes := newNote :: notes in
  (newNote, saveNotes set_ok updatedNotes st).

(** [notes.findIndex(p)], with [None] for [-1]. *)
Fixpoint findIndex {A} (p : A -> bool) (l : list A) : option nat :=
  match l with
  | [] => None
  | x :: r => if p x then Some O else option_map S (findIndex p r)
  end.

(** [l[i] = x] for an index [i] inside the array. *)
Fixpoint set_nth {A} (i : nat) (x : A) (l : list A) : list A :=
  match l, i with
  | [], _ => []
  | _ :: r, O => x :: r
  | y :: r, S j => y :: set_nth j x r
  end.

Definition no_note : Note.t := Note.mk "" "" 0.

(** [updateNote(id, content)] at the instant [now]: [None] for [null]. *)
Definition updateNote (get_ok set_ok : bool) (id content : string) (now : Z) (st : store)
  : option Note.t * store :=
  let notes := loadNotes get_ok st in
  match findIndex (fun note => String.eqb (Note.id note) id) notes with
  | None => (None, st)
  | Some noteIndex =>
      let old := nth noteIndex notes no_note in
      let notes' := set_nth noteIndex (Note.mk (Note.id old) content now) notes in
      (Some (nth noteIndex notes' no_note), saveNotes set_ok notes' st)
  end.

(** [deleteNote(id)]. *)
Definition deleteNote (get_ok set_ok : bool) (id : string) (st : store) : bool * store :=
  let notes := loadNotes get_ok st in
  let updatedNotes := filter (fun note => negb (String.eqb (Note.id note) id)) notes in
  if Nat.eqb (List.length updatedNotes) (List.length notes) then (false, st)
  else (true, saveNotes set_ok updatedNotes st).

(** [getNoteById(id)]: [notes.find(...) || null] (a note object is never
    falsy). *)
Definition getNoteById (ok : bool) (id : string) (st : store) : option Note.t :=
  find (fun note => String.eqb (Note.id note) id) (loadNotes ok st).

End Storage.

(** The notes list screen ([NotesScreen]): its two [useState] hooks. *)
Module NotesList.

Record state := mkState {
  notes : list Note.t;
  isLoading : bool
}.

(** [loadNotesFromStorage]: [isLoading] is [true] while [loadNotes] runs,
    then the list shows what it returned. *)
Definition loadNotesFromStorage (ok : bool) (st : Storage.store) (s : state) : state :=
  mkState (Storage.loadNotes ok st) false.

(** [handleDeleteNote(noteId)] once its dialog is answered: [confirm] is the
    choice of "Delete" (its [onPress]: [deleteNote] then
    [loadNotesFromStorage]) over "Cancel" (nothing). [get_ok], [set_ok] and
    [reload_ok] are the outcomes of the storage calls. *)
Definition handleDeleteNote (confirm get_ok set_ok reload_ok : bool) (noteId : string)
    (st : Storage.store) (s : state) : Storage.store * state :=
  if confirm then
    let '(_, st') := Storage.deleteNote get_ok set_ok noteId st in
    (st', loadNotesFromStorage reload_ok st' s)
  else (st, s).

End NotesList.

(** A list of integers in non-increasing order. *)
Fixpoint sorted_desc (l : list Z) : bool :=
  match l with
  | a :: ((b :: _) as r) => (b <=? a)%Z && sorted_desc r
  | _ => true
  end.

(** Code points that are all white space or line terminators. *)
Definition blank (cs : list Z) : bool :=
  forallb (fun c => JsEval.is_white_space c || JsEval.is_line_terminator c) cs.

(** Strings of ASCII characters only. *)
Definition ascii_only (s : string) : bool :=
  forallb (fun c => (nat_of_ascii c <? 128)%nat) (Str.chars s).

(** The UTF-8 encodings of the multiplication sign U+00D7 and the division
    sign U+00F7, which the evaluator rewrites to [*] and [/]. *)
Definition times_glyph : string := String (ascii_of_nat 195) (String (ascii_of_nat 151) EmptyString).
Definition divide_glyph : string := String (ascii_of_nat 195) (String (ascii_of_nat 183) EmptyString).

(** A history entry as [=] records it: its result is what the evaluator
    gives for its expression and is not ["Error"], its expression is not the
    secret code. *)
Definition history_entry_ok (ev : string -> option string) (it : HistoryItem.t) : bool :=
  match ev (HistoryItem.expression it) with
  | Some r => String.eqb r (HistoryItem.result it)
  | None => false
  end
  && negb (String.eqb (HistoryItem.result it) "Error")
  && negb (checkSecretCode (HistoryItem.expression it)).

(** [b] is at most [a] when [l] starts with [b]. *)
Definition hd_le (a : Z) (l : list Z) : Prop :=
  match l with b :: _ => (b <= a)%Z | [] => True end.

(* ================================================================== *)
(** * Proofs *)

Section HandlerFacts.

Variable ev : string -> option string.

(** C1: the secret check is string equality with ["69/67"]: the near miss
    ["69/68"] and the prefix ["696"] fail it, and [=] on either buffer takes
    the evaluation branch. *)
Theorem checkSecretCode_exact_match :
  (forall b, checkSecretCode b = true <-> b = "69/67") /\
  checkSecretCode "69/68" = false /\ checkSecretCode "696" = false /\
  (forall r h jc st rt now,
     handleButtonPress ev (mkState "69/68" r h jc st rt) now "=" =
     evaluate_and_record ev (mkState "69/68" r h jc st rt) now) /\
  (forall r h jc st rt now,
     handleButtonPress ev (mkState "696" r h jc st rt) now "=" =
     evaluate_and_record ev (mkState "696" r h jc st rt) now).
Proof.
  split; [|split; [reflexivity|split; [reflexivity|split]]].
  - intro b. unfold checkSecretCode, SECRET_CODE. apply String.eqb_eq.
  - intros. reflexivity.
  - intros. reflexivity.
Qed.

(** C2: [=] on the buffer ["69/67"] resets the buffer to ["0"], clears the
    result, navigates to the notes vault and leaves the history and its
    saved copy as they were; the outcome does not depend on the evaluator,
    which is never consulted. *)
Theorem secret_code_press_effect :
  forall r h jc st rt now,
    handleButtonPress ev (mkState "69/67" r h jc st rt) now "=" =
    Some (mkState "0" "" h jc st ("Notes" :: rt)).
Proof. intros. reflexivity. Qed.

(** C5: an [=] press whose evaluation gives ["Error"] leaves the buffer, the
    history and the saved history unchanged. *)
Theorem error_press_keeps_buffer_and_history :
  forall s now,
    checkSecretCode (expression s) = false ->
    ev (expression s) = Some "Error" ->
    exists s', handleButtonPress ev s now "=" = Some s' /\
      expression s' = expression s /\ history s' = history s /\
      stored_history s' = stored_history s.
Proof.
  intros s now Hsec Hev.
  unfold handleButtonPress. simpl. rewrite Hsec.
  unfold evaluate_and_record. rewrite Hev. simpl.
  eexists. repeat split.
Qed.

(** C7: [C] resets the buffer to ["0"], clears the result and the
    [justCalculated] flag, and empties the history and its saved copy, from
    any state. *)
Theorem clear_resets_everything :
  forall s now,
    handleButtonPress ev s now "C" = Some (mkState "0" "" [] false [] (routes s)).
Proof. intros. reflexivity. Qed.

(** C10: after a non-secret [=] (whatever the evaluation gave, ["Error"]
    included) [justCalculated] is set; the next digit replaces the buffer by
    itself and the next operator makes it the displayed result followed by
    the operator. *)
Theorem equals_sets_justCalculated :
  forall s now r,
    checkSecretCode (expression s) = false ->
    ev (expression s) = Some r ->
    exists s', handleButtonPress ev s now "=" = Some s' /\
      justCalculated s' = true /\ result s' = r /\
      (forall d now', In d digit_buttons ->
         option_map expression (handleButtonPress ev s' now' d) = Some d) /\
      (forall o now', In o operator_buttons ->
         option_map expression (handleButtonPress ev s' now' o) = Some (r ++ o)).
Proof.
  intros s now r Hsec Hev.
  unfold handleButtonPress at 1. simpl. rewrite Hsec.
  unfold evaluate_and_record. rewrite Hev.
  destruct (negb (String.eqb r "Error")); eexists; (split; [reflexivity|]);
    simpl; (split; [reflexivity|split; [reflexivity|split]]);
    intros x now' Hin; simpl in Hin;
    repeat (destruct Hin as [<-|Hin]; [reflexivity|]); destruct Hin.
Qed.

End HandlerFacts.

(** *** The history ledger *)

Lemma firstn_app_firstn {A} (n : nat) (l m : list A) :
  firstn n (l ++ firstn n m) = firstn n (l ++ m).
Proof.
  rewrite !firstn_app, firstn_firstn.
  f_equal. f_equal. lia.
Qed.

Lemma firstn_short {A} (n : nat) (l : list A) : (List.length l <= n)%nat -> firstn n l = l.
Proof. intro H. apply firstn_all2. exact H. Qed.

(** One press other than [C]: the history becomes the ten newest of the
    entry it records (if any) and the history before. *)
Lemma press_history ev s now v s' :
  handleButtonPress ev s now v = Some s' ->
  String.eqb v "C" = false ->
  (List.length (history s) <= 10)%nat ->
  history s' = firstn 10 (rev (Spec.recorded ev s [(now, v)]) ++ history s).
Proof.
  intros Hp HC Hlen. simpl Spec.recorded. rewrite Hp, app_nil_r.
  unfold handleButtonPress in Hp. rewrite HC in Hp.
  destruct (String.eqb v "=") eqn:HE; simpl andb.
  - apply String.eqb_eq in HE; subst v.
    replace (String.eqb "=" "DEL") with false in Hp by reflexivity.
    replace (String.eqb "=" "=") with true in Hp by reflexivity. cbv beta iota in Hp.
    destruct (checkSecretCode (expression s)) eqn:Hs; simpl negb.
    + inversion Hp; subst. cbn [rev app history]. symmetry. apply firstn_short. exact Hlen.
    + unfold evaluate_and_record in Hp.
      destruct (ev (expression s)) as [r|]; [|discriminate].
      destruct (String.eqb r "Error") eqn:Hr; simpl in Hp; inversion Hp; subst; cbn [rev app history].
      * symmetry. apply firstn_short. exact Hlen.
      * reflexivity.
  - cbn [rev app]. rewrite firstn_short by exact Hlen.
    destruct (String.eqb v "DEL"); [inversion Hp; reflexivity|].
    try rewrite HE in Hp.
    destruct (input_update (expression s) (result s) (justCalculated s) v) as [e jc].
    inversion Hp. reflexivity.
Qed.

Lemma press_history_bound ev s now v s' :
  handleButtonPress ev s now v = Some s' ->
  (List.length (history s) <= 10)%nat -> (List.length (history s') <= 10)%nat.
Proof.
  intros Hp Hlen.
  destruct (String.eqb v "C") eqn:HC.
  - unfold handleButtonPress in Hp. rewrite HC in Hp. inversion Hp; subst. simpl. lia.
  - rewrite (press_history ev s now v s' Hp HC Hlen). rewrite length_firstn. lia.
Qed.

Lemma recorded_cons ev s now v rest s' :
  handleButtonPress ev s now v = Some s' ->
  Spec.recorded ev s ((now, v) :: rest) =
  (Spec.recorded ev s [(now, v)] ++ Spec.recorded ev s' rest)%list.
Proof. intro Hp. simpl. rewrite Hp. rewrite app_nil_r. reflexivity. Qed.

Lemma run_history ev presses : forall s s',
  (List.length (history s) <= 10)%nat ->
  run ev s presses = Some s' ->
  (List.length (history s') <= 10)%nat /\
  (Spec.no_clear presses = true ->
     history s' = firstn 10 (rev (Spec.recorded ev s presses) ++ history s)).
Proof.
  induction presses as [|[now v] rest IH]; intros s s' Hlen Hrun.
  - simpl in Hrun. inversion Hrun; subst. split; [exact Hlen|].
    intros _. cbn [rev app Spec.recorded]. symmetry. apply firstn_short. exact Hlen.
  - simpl in Hrun. destruct (handleButtonPress ev s now v) as [s1|] eqn:Hp; [|discriminate].
    pose proof (press_history_bound ev s now v s1 Hp Hlen) as Hlen1.
    destruct (IH s1 s' Hlen1 Hrun) as [Hb Hf]. split; [exact Hb|].
    intro Hnc. simpl in Hnc. apply andb_true_iff in Hnc as [HC Hnc].
    apply negb_true_iff in HC.
    rewrite (Hf Hnc), (press_history ev s now v s1 Hp HC Hlen), firstn_app_firstn.
    rewrite (recorded_cons ev s now v rest s1 Hp), rev_app_distr, app_assoc.
    reflexivity.
Qed.

(** C6: from a saved history of at most ten entries, the history stays at
    most ten entries long; without [C], it is the ten newest of the recorded
    successful evaluations (newest first) followed by the saved ones: each
    success prepends one entry and the oldest beyond ten are dropped. *)
Theorem history_ledger_capped_newest_first :
  forall ev saved presses s,
    (List.length saved <= 10)%nat ->
    run ev (mount saved) presses = Some s ->
    (List.length (history s) <= 10)%nat /\
    (Spec.no_clear presses = true ->
       history s = firstn 10 (rev (Spec.recorded ev (mount saved) presses) ++ saved)).
Proof.
  intros ev saved presses s Hlen Hrun.
  exact (run_history ev presses (mount saved) s Hlen Hrun).
Qed.

(** *** The decimal guard *)

Local Open Scope list_scope.

Lemma fold_op_suffix x acc :
  fold_right op_suffix_step acc x =
  if existsb Chars.is_op x then fold_right op_suffix_step [] x else x ++ acc.
Proof.
  induction x as [|d x IH]; simpl; [reflexivity|].
  unfold op_suffix_step at 1 3. destruct (Chars.is_op d) eqn:Hd; simpl; [reflexivity|].
  rewrite IH. destruct (existsb Chars.is_op x); reflexivity.
Qed.

Lemma existsb_rev {A} (f : A -> bool) l : existsb f (rev l) = existsb f l.
Proof.
  induction l as [|a l IH]; simpl; [reflexivity|].
  rewrite existsb_app, IH. simpl. rewrite orb_false_r, orb_comm. reflexivity.
Qed.

Lemma last_operand_cons c l :
  rev (fold_right op_suffix_step [] (rev (c :: l))) =
  if existsb Chars.is_op l then rev (fold_right op_suffix_step [] (rev l))
  else (if Chars.is_op c then [] else [c]) ++ l.
Proof.
  simpl. rewrite fold_right_app. simpl. unfold op_suffix_step at 2.
  rewrite fold_op_suffix, existsb_rev.
  destruct (existsb Chars.is_op l); [reflexivity|].
  rewrite rev_app_distr, rev_involutive. destruct (Chars.is_op c); reflexivity.
Qed.

Lemma split_ops_aux_nonempty l : forall cur, Str.split_ops_aux cur l <> [].
Proof.
  induction l as [|c l IH]; intro cur; simpl; [discriminate|].
  destruct (Chars.is_op c); [discriminate|apply IH].
Qed.

Lemma split_last cur l :
  last (Str.split_ops_aux cur l) [] =
  if existsb Chars.is_op l then rev (fold_right op_suffix_step [] (rev l))
  else rev cur ++ l.
Proof.
  revert cur. induction l as [|c l IH]; intro cur.
  - simpl. rewrite app_nil_r. reflexivity.
  - simpl Str.split_ops_aux. rewrite last_operand_cons. simpl existsb.
    destruct (Chars.is_op c) eqn:Hc.
    + assert (Hne : Str.split_ops_aux [] l <> []).
      { apply split_ops_aux_nonempty. }
      destruct (Str.split_ops_aux [] l) as [|p ps] eqn:Hs; [contradiction|].
      change (last (rev cur :: p :: ps) []) with (last (p :: ps) []).
      rewrite <- Hs, IH. simpl. destruct (existsb Chars.is_op l); reflexivity.
    + simpl. rewrite IH. simpl. rewrite <- app_assoc. destruct (existsb Chars.is_op l); reflexivity.
Qed.

Lemma last_map_default {A B} (f : A -> B) (l : list A) (d : A) :
  last (map f l) (f d) = f (last l d).
Proof.
  induction l as [|a l IH]; [reflexivity|].
  destruct l as [|b l]; [reflexivity|]. exact IH.
Qed.

Lemma last_part_split b : Str.last_part (Str.split_ops b) = Spec.last_operand b.
Proof.
  unfold Str.last_part, Str.split_ops, Spec.last_operand.
  change "" with (string_of_list_ascii []). rewrite last_map_default. f_equal.
  rewrite split_last. simpl.
  set (l := Str.chars b).
  destruct (existsb Chars.is_op l) eqn:He; [reflexivity|].
  rewrite fold_op_suffix, existsb_rev, He, app_nil_r, rev_involutive. reflexivity.
Qed.

(** C9: [.] leaves the buffer as it is when the operand since the last
    operator already holds a [.], and appends [.] otherwise, from any state;
    the buffer ["3.5"] stays ["3.5"]. *)
Theorem decimal_guard :
  (forall ev s now,
    option_map expression (handleButtonPress ev s now ".") =
    Some (if Str.includes_dot (Spec.last_operand (expression s))
          then expression s else (expression s ++ ".")%string)) /\
  (forall ev r h j sh rt now,
    option_map expression (handleButtonPress ev (mkState "3.5" r h j sh rt) now ".") =
    Some "3.5").
Proof.
  assert (G : forall ev s now,
    option_map expression (handleButtonPress ev s now ".") =
    Some (if Str.includes_dot (Spec.last_operand (expression s))
          then expression s else (expression s ++ ".")%string)).
  { intros ev s now. unfold handleButtonPress. simpl.
    unfold input_update.
    replace (Str.test_digit ".") with false by reflexivity.
    replace (Str.test_op ".") with false by reflexivity.
    rewrite !andb_false_r. simpl. rewrite last_part_split. reflexivity. }
  split; [exact G|].
  intros ev r h j sh rt now. rewrite G. reflexivity.
Qed.

(** *** The buffer invariant *)

Lemma chars_app (a b : string) : Str.chars (a ++ b)%string = Str.chars a ++ Str.chars b.
Proof. induction a as [|c a IH]; simpl; [reflexivity|]. unfold Str.chars in *. rewrite IH. reflexivity. Qed.

Lemma length_chars (s : string) : String.length s = List.length (Str.chars s).
Proof. induction s as [|c s IH]; simpl; [reflexivity|]. rewrite IH. reflexivity. Qed.

Lemma chars_substring0 n (s : string) : Str.chars (substring 0 n s) = firstn n (Str.chars s).
Proof.
  revert n. induction s as [|c s IH]; intro n; destruct n; try reflexivity.
  simpl. unfold Str.chars in *. rewrite IH. reflexivity.
Qed.

Lemma chars_drop_last (s : string) : Str.chars (Str.drop_last s) = removelast (Str.chars s).
Proof.
  unfold Str.drop_last. rewrite chars_substring0, removelast_firstn_len, length_chars.
  f_equal. lia.
Qed.

Lemma ends_with_op_last (s : string) :
  Str.ends_with_op s = Chars.is_op (last (Str.chars s) "0"%char).
Proof.
  unfold Str.ends_with_op. destruct (Str.chars s) as [|c l] eqn:Hs; [reflexivity|].
  rewrite (app_removelast_last "0"%char (l := c :: l)) at 1 by discriminate.
  rewrite rev_app_distr. reflexivity.
Qed.

Lemma no_double_op_snoc (l : list ascii) (c : ascii) :
  l <> [] ->
  Spec.no_double_op (l ++ [c]) =
  Spec.no_double_op l && negb (Chars.is_op (last l "0"%char) && Chars.is_op c).
Proof.
  intro Hne. induction l as [|a l IH]; [contradiction|].
  destruct l as [|b l].
  - simpl. rewrite andb_true_r. reflexivity.
  - change ((a :: b :: l) ++ [c]) with (a :: b :: (l ++ [c])).
    change (last (a :: b :: l) "0"%char) with (last (b :: l) "0"%char).
    change (Spec.no_double_op (a :: b :: (l ++ [c]))) with
      (negb (Chars.is_op a && Chars.is_op b) && Spec.no_double_op (b :: (l ++ [c]))).
    change (b :: (l ++ [c])) with ((b :: l) ++ [c]).
    rewrite IH by discriminate.
    change (Spec.no_double_op (a :: b :: l)) with
      (negb (Chars.is_op a && Chars.is_op b) && Spec.no_double_op (b :: l)).
    rewrite andb_assoc. reflexivity.
Qed.

Lemma no_double_op_prefix (l1 l2 : list ascii) :
  Spec.no_double_op (l1 ++ l2) = true -> Spec.no_double_op l1 = true.
Proof.
  induction l1 as [|a l1 IH]; intro H; [reflexivity|].
  destruct l1 as [|b l1]; [reflexivity|].
  simpl in H. apply andb_true_iff in H as [Hab H].
  simpl. rewrite Hab. apply IH. exact H.
Qed.

Lemma chars_ok_snoc (l : list ascii) (c : ascii) :
  Spec.chars_ok l = true -> Spec.in_alphabet c = true ->
  (Chars.is_op (last l "0"%char) && Chars.is_op c) = false ->
  Spec.chars_ok (l ++ [c]) = true.
Proof.
  intros Hl Hc Hd. destruct l as [|a l]; [discriminate|].
  change (forallb Spec.in_alphabet (a :: l) && negb (Chars.is_op a)
          && Spec.no_double_op (a :: l) = true) in Hl.
  change (forallb Spec.in_alphabet ((a :: l) ++ [c]) && negb (Chars.is_op a)
          && Spec.no_double_op ((a :: l) ++ [c]) = true).
  rewrite no_double_op_snoc by discriminate.
  rewrite forallb_app, Hd. simpl forallb at 2. rewrite Hc.
  apply andb_true_iff in Hl as [Hl Hn]. apply andb_true_iff in Hl as [Hf Ho].
  rewrite Hf, Ho, Hn. reflexivity.
Qed.

Lemma chars_ok_prefix (l1 l2 : list ascii) :
  Spec.chars_ok (l1 ++ l2) = true -> l1 <> [] -> Spec.chars_ok l1 = true.
Proof.
  intros H Hne. destruct l1 as [|a l1]; [contradiction|].
  change (forallb Spec.in_alphabet ((a :: l1) ++ l2) && negb (Chars.is_op a)
          && Spec.no_double_op ((a :: l1) ++ l2) = true) in H.
  change (forallb Spec.in_alphabet (a :: l1) && negb (Chars.is_op a)
          && Spec.no_double_op (a :: l1) = true).
  apply andb_true_iff in H as [H Hn]. apply andb_true_iff in H as [Hf Ho].
  rewrite forallb_app in Hf. apply andb_true_iff in Hf as [Hf _].
  rewrite Hf, Ho, (no_double_op_prefix _ _ Hn). reflexivity.
Qed.

(** The last character of a valid buffer that ends in an operator is
    preceded by a non-operator. *)
Lemma chars_ok_drop_op (l : list ascii) :
  Spec.chars_ok l = true -> Chars.is_op (last l "0"%char) = true ->
  removelast l <> [] /\ Spec.chars_ok (removelast l) = true /\
  Chars.is_op (last (removelast l) "0"%char) = false.
Proof.
  intros Hl Hop. assert (Hne : l <> []) by (intro; subst; discriminate).
  pose proof (app_removelast_last "0"%char Hne) as Hsplit.
  assert (Hr : removelast l <> []).
  { intro Hr. rewrite Hr in Hsplit. simpl in Hsplit. rewrite Hsplit in Hl.
    unfold Spec.chars_ok in Hl. rewrite Hop in Hl.
    rewrite andb_false_r in Hl. simpl in Hl. discriminate. }
  split; [exact Hr|split].
  - rewrite Hsplit in Hl. exact (chars_ok_prefix _ _ Hl Hr).
  - destruct l as [|a l]; [contradiction|].
    unfold Spec.chars_ok in Hl. apply andb_true_iff in Hl as [_ Hn].
    rewrite Hsplit, no_double_op_snoc in Hn by exact Hr.
    apply andb_true_iff in Hn as [_ Hn]. rewrite Hop, andb_true_r in Hn.
    apply negb_true_iff in Hn. exact Hn.
Qed.

Lemma buffer_ok_append (prev v : string) (c : ascii) :
  Spec.buffer_ok prev = true -> Str.chars v = [c] -> Spec.in_alphabet c = true ->
  (Str.ends_with_op prev && Chars.is_op c) = false ->
  Spec.buffer_ok (prev ++ v)%string = true.
Proof.
  intros Hp Hv Hc Hd. unfold Spec.buffer_ok in *.
  rewrite chars_app, Hv. rewrite ends_with_op_last in Hd.
  apply chars_ok_snoc; assumption.
Qed.

Lemma buffer_ok_single (v : string) (c : ascii) :
  Str.chars v = [c] -> Spec.in_alphabet c = true -> Chars.is_op c = false ->
  Spec.buffer_ok v = true.
Proof.
  intros Hv Hc Ho. unfold Spec.buffer_ok, Spec.chars_ok. rewrite Hv. simpl.
  rewrite Hc, Ho. reflexivity.
Qed.

Lemma input_update_digit prev r jc v c :
  Str.chars v = [c] -> Str.test_digit v = true -> String.eqb v "." = false ->
  Spec.in_alphabet c = true -> Chars.is_op c = false ->
  Spec.buffer_ok prev = true ->
  Spec.buffer_ok (fst (input_update prev r jc v)) = true.
Proof.
  intros Hv Hd Hdot Hc Ho Hp. unfold input_update. rewrite Hd, Hdot.
  destruct jc; simpl; [exact (buffer_ok_single v c Hv Hc Ho)|].
  rewrite !andb_true_r.
  destruct (String.eqb prev "0"); [exact (buffer_ok_single v c Hv Hc Ho)|].
  assert (Hop : Str.test_op v = false) by (unfold Str.test_op; rewrite Hv; simpl; rewrite Ho; reflexivity).
  rewrite Hop, andb_false_r. simpl.
  apply (buffer_ok_append prev v c Hp Hv Hc). rewrite Ho, andb_false_r. reflexivity.
Qed.

Lemma input_update_operator prev r v c :
  Str.chars v = [c] -> Str.test_digit v = false -> Str.test_op v = true ->
  String.eqb v "." = false -> Spec.in_alphabet c = true -> Chars.is_op c = true ->
  Spec.buffer_ok prev = true ->
  Spec.buffer_ok (fst (input_update prev r false v)) = true.
Proof.
  intros Hv Hd Ht Hdot Hc Ho Hp. unfold input_update. rewrite Hd, Ht, Hdot.
  simpl. rewrite andb_false_r, andb_true_r.
  destruct (Str.ends_with_op prev) eqn:He.
  - rewrite ends_with_op_last in He. unfold Spec.buffer_ok in *.
    destruct (chars_ok_drop_op _ Hp He) as [Hne [Hok Hlast]].
    rewrite chars_app, chars_drop_last, Hv.
    apply chars_ok_snoc; [exact Hok|exact Hc|]. rewrite Hlast. reflexivity.
  - apply (buffer_ok_append prev v c Hp Hv Hc). rewrite He. reflexivity.
Qed.

Lemma input_update_dot prev r jc :
  Spec.buffer_ok prev = true ->
  Spec.buffer_ok (fst (input_update prev r jc ".")) = true.
Proof.
  intro Hp. unfold input_update.
  replace (Str.test_digit ".") with false by reflexivity.
  replace (Str.test_op ".") with false by reflexivity.
  rewrite !andb_false_r. simpl.
  destruct (Str.includes_dot (Str.last_part (Str.split_ops prev))); [exact Hp|].
  apply (buffer_ok_append prev "." "."%char Hp eq_refl eq_refl).
  rewrite andb_false_r. reflexivity.
Qed.

Lemma evaluate_and_record_expression ev s now s' :
  evaluate_and_record ev s now = Some s' -> expression s' = expression s.
Proof.
  unfold evaluate_and_record. destruct (ev (expression s)) as [r|]; [|discriminate].
  destruct (negb (String.eqb r "Error")); intro H; inversion H; reflexivity.
Qed.

Lemma press_input_expression ev s now v s' :
  String.eqb v "C" = false -> String.eqb v "DEL" = false -> String.eqb v "=" = false ->
  handleButtonPress ev s now v = Some s' ->
  expression s' = fst (input_update (expression s) (result s) (justCalculated s) v).
Proof.
  intros HC HD HE Hp. unfold handleButtonPress in Hp. rewrite HC, HD, HE in Hp.
  destruct (input_update (expression s) (result s) (justCalculated s) v) as [e jc].
  inversion Hp. reflexivity.
Qed.

Lemma is_button_cases v :
  is_button v = true ->
  In v ["C"; "DEL"; "="; "."] \/ In v digit_buttons \/ In v operator_buttons.
Proof.
  unfold is_button, BUTTON_LAYOUT. cbn [existsb fst]. intro H.
  repeat (apply orb_true_iff in H as [H|H];
          [apply String.eqb_eq in H; subst v; cbv [In digit_buttons operator_buttons];
           intuition auto|]).
  discriminate.
Qed.

Lemma test_digit_single c : Str.test_digit (String c "") = Chars.is_digit c.
Proof. unfold Str.test_digit, Str.chars. simpl. apply orb_false_r. Qed.

Lemma test_op_single c : Str.test_op (String c "") = Chars.is_op c.
Proof. unfold Str.test_op, Str.chars. simpl. apply orb_false_r. Qed.

Lemma operator_cases o : In o operator_buttons ->
  exists c, o = String c "" /\ Chars.is_digit c = false /\ Chars.is_op c = true /\
            String.eqb o "C" = false /\ String.eqb o "DEL" = false /\ String.eqb o "=" = false /\
            String.eqb o "." = false.
Proof.
  cbv [operator_buttons In]. intro H.
  repeat (destruct H as [<-|H]; [eexists; repeat split; reflexivity|]). contradiction.
Qed.

(** An operator appended to a string gives a valid buffer exactly when the
    string is a valid buffer that does not end with an operator. *)
Lemma buffer_ok_chain (r o : string) :
  In o operator_buttons ->
  Spec.buffer_ok (r ++ o)%string = true <->
  Spec.buffer_ok r = true /\ Str.ends_with_op r = false.
Proof.
  intro Ho. destruct (operator_cases o Ho) as (c & -> & _ & Hc & _).
  assert (Hv : Str.chars (String c "") = [c]) by reflexivity.
  assert (Ha : Spec.in_alphabet c = true)
    by (unfold Spec.in_alphabet; rewrite Hc; apply orb_true_r).
  split.
  - unfold Spec.buffer_ok. rewrite chars_app, Hv. intro H.
    destruct (Str.chars r) as [|a l] eqn:Hr.
    + simpl in H. rewrite Hc, andb_false_r in H. simpl in H. discriminate.
    + assert (Hne : a :: l <> []) by discriminate.
      split; [exact (chars_ok_prefix _ _ H Hne)|].
      rewrite ends_with_op_last, Hr.
      unfold Spec.chars_ok in H. apply andb_true_iff in H as [_ Hn].
      rewrite no_double_op_snoc in Hn by exact Hne.
      apply andb_true_iff in Hn as [_ Hn]. rewrite Hc, andb_true_r in Hn.
      apply negb_true_iff in Hn. exact Hn.
  - intros [Hok He]. apply (buffer_ok_append r (String c "") c Hok Hv Ha).
    rewrite He. reflexivity.
Qed.

(** A key press keeps the buffer valid, except an operator pressed while
    [justCalculated] is set, which makes the buffer the displayed result
    followed by the operator. *)
Lemma press_buffer_ok ev s now v s' :
  is_button v = true -> Spec.buffer_ok (expression s) = true ->
  handleButtonPress ev s now v = Some s' ->
  Spec.buffer_ok (expression s') = true \/
  (justCalculated s = true /\ Str.test_op v = true /\ In v operator_buttons /\
   expression s' = (result s ++ v)%string).
Proof.
  intros Hb Hok Hp.
  destruct (is_button_cases v Hb) as [Hf|[Hd|Ho]].
  - simpl in Hf. unfold handleButtonPress in Hp.
    repeat (destruct Hf as [<-|Hf]; [|]); [| | | |contradiction].
    + inversion Hp; subst. left. reflexivity.
    + simpl in Hp. inversion Hp; subst. left. simpl.
      destruct (String.length (expression s) <=? 1)%nat eqn:Hl; [reflexivity|].
      apply Nat.leb_gt in Hl. unfold Spec.buffer_ok in *. rewrite chars_drop_last.
      rewrite length_chars in Hl.
      destruct (Str.chars (expression s)) as [|a l] eqn:He; [discriminate|].
      assert (Hne : l <> []) by (intro; subst; simpl in Hl; lia).
      assert (Hal : a :: l <> []) by discriminate.
      rewrite (app_removelast_last "0"%char Hal) in Hok.
      apply (chars_ok_prefix _ _ Hok).
      destruct l as [|b l]; [contradiction|]. simpl. discriminate.
    + simpl in Hp. destruct (checkSecretCode (expression s)).
      * inversion Hp; subst. left. reflexivity.
      * left. rewrite (evaluate_and_record_expression ev s now s' Hp). exact Hok.
    + left. rewrite (press_input_expression ev s now "." s' eq_refl eq_refl eq_refl Hp).
      apply input_update_dot. exact Hok.
  - left. unfold digit_buttons in Hd.
    rewrite (press_input_expression ev s now v s'); [| | | |exact Hp];
      [|repeat (destruct Hd as [<-|Hd]; [reflexivity|]); destruct Hd ..].
    repeat (destruct Hd as [<-|Hd];
      [eapply input_update_digit; [reflexivity..|exact Hok]|]).
    destruct Hd.
  - unfold operator_buttons in Ho.
    rewrite (press_input_expression ev s now v s'); [| | | |exact Hp];
      [|repeat (destruct Ho as [<-|Ho]; [reflexivity|]); destruct Ho ..].
    pose proof Ho as Hin. destruct (justCalculated s) eqn:Hjc.
    + right. unfold input_update.
      repeat (destruct Ho as [<-|Ho];
        [split; [reflexivity|split; [reflexivity|split; [exact Hin|reflexivity]]]|]).
      destruct Ho.
    + left.
      repeat (destruct Ho as [<-|Ho];
        [eapply input_update_operator; [reflexivity..|exact Hok]|]).
      destruct Ho.
Qed.

Lemma chars_app_nonempty (a b : string) :
  Str.chars b <> [] -> Str.chars (a ++ b)%string <> [].
Proof.
  intros Hb H. rewrite chars_app in H. apply app_eq_nil in H as [_ H]. contradiction.
Qed.

Lemma input_update_nonempty prev r jc v :
  Str.chars v <> [] -> Str.chars prev <> [] ->
  Str.chars (fst (input_update prev r jc v)) <> [].
Proof.
  intros Hv Hp. unfold input_update.
  destruct (jc && Str.test_digit v); [exact Hv|].
  destruct (jc && Str.test_op v); [apply chars_app_nonempty; exact Hv|].
  destruct (String.eqb prev "0" && Str.test_digit v); [exact Hv|].
  destruct (Str.ends_with_op prev && Str.test_op v); [apply chars_app_nonempty; exact Hv|].
  destruct (String.eqb v "." && Str.includes_dot (Str.last_part (Str.split_ops prev)));
    [exact Hp|apply chars_app_nonempty; exact Hv].
Qed.

Lemma press_nonempty ev s now v s' :
  is_button v = true -> Str.chars (expression s) <> [] ->
  handleButtonPress ev s now v = Some s' -> Str.chars (expression s') <> [].
Proof.
  intros Hb Hne Hp.
  destruct (is_button_cases v Hb) as [Hf|Hdo].
  - simpl in Hf.
    repeat (destruct Hf as [<-|Hf]; [|]); [| | | |contradiction];
      unfold handleButtonPress in Hp.
    + inversion Hp; subst. discriminate.
    + simpl in Hp. inversion Hp; subst. simpl.
      destruct (String.length (expression s) <=? 1)%nat eqn:Hl; [discriminate|].
      apply Nat.leb_gt in Hl. rewrite chars_drop_last. rewrite length_chars in Hl.
      destruct (Str.chars (expression s)) as [|a [|b l]]; simpl in *; try lia.
      discriminate.
    + simpl in Hp. destruct (checkSecretCode (expression s)).
      * inversion Hp; subst. discriminate.
      * rewrite (evaluate_and_record_expression ev s now s' Hp). exact Hne.
    + rewrite (press_input_expression ev s now "." s' eq_refl eq_refl eq_refl Hp).
      apply input_update_nonempty; [discriminate|exact Hne].
  - assert (Hin : In v (digit_buttons ++ operator_buttons)) by (apply in_or_app; exact Hdo).
    simpl in Hin.
    rewrite (press_input_expression ev s now v s'); [| | | |exact Hp];
      [|repeat (destruct Hin as [<-|Hin]; [reflexivity|]); destruct Hin ..].
    apply input_update_nonempty; [|exact Hne].
    repeat (destruct Hin as [<-|Hin]; [discriminate|]). destruct Hin.
Qed.

Lemma run_buffer ev presses : forall s s',
  forallb (fun p => is_button (snd p)) presses = true ->
  run ev s presses = Some s' ->
  (Str.chars (expression s) <> [] -> Str.chars (expression s') <> []) /\
  (Spec.buffer_ok (expression s) = true -> Spec.chains_on_valid_results ev s presses = true ->
   Spec.buffer_ok (expression s') = true).
Proof.
  induction presses as [|[now v] rest IH]; intros s s' Hb Hrun.
  - simpl in Hrun. inversion Hrun; subst. split; intros; assumption.
  - simpl in Hb. apply andb_true_iff in Hb as [Hv Hb].
    simpl in Hrun. destruct (handleButtonPress ev s now v) as [s1|] eqn:Hp; [|discriminate].
    destruct (IH s1 s' Hb Hrun) as [Hne Hok]. split.
    + intro H. apply Hne. exact (press_nonempty ev s now v s1 Hv H Hp).
    + intros H Hnc. simpl in Hnc. rewrite Hp in Hnc.
      apply andb_true_iff in Hnc as [Hj Hnc]. apply Hok; [|exact Hnc].
      destruct (press_buffer_ok ev s now v s1 Hv H Hp) as [Hs1|(Hjc & Hop & Hin & He)];
        [exact Hs1|].
      rewrite Hjc, Hop in Hj. cbn [andb negb orb] in Hj.
      apply andb_true_iff in Hj as [Hr He']. apply negb_true_iff in He'.
      rewrite He. apply buffer_ok_chain; [exact Hin|split; assumption].
Qed.

(** C8 (counterexample): the buffer does not keep the invariant across an
    operator pressed right after [=]: [-], [5], [=], [+] from the start give
    ["-5+"], which begins with an operator, and [5], [/], [0], [=], [+] give
    ["Error+"], which leaves the alphabet. *)
Lemma buffer_invariant_counterexample :
  option_map expression
    (run JsEval.evaluateExpression (mount [])
         [(Instants 1 1, "-"); (Instants 2 2, "5"); (Instants 3 3, "="); (Instants 4 4, "+")]) = Some "-5+" /\
  Spec.buffer_ok "-5+" = false /\
  option_map expression
    (run JsEval.evaluateExpression (mount [])
         [(Instants 1 1, "5"); (Instants 2 2, "/"); (Instants 3 3, "0"); (Instants 4 4, "="); (Instants 5 5, "+")]) = Some "Error+" /\
  Spec.buffer_ok "Error+" = false.
Proof. vm_compute. repeat split. Qed.

(** C8 (amended): from the initial buffer ["0"], over presses of the grid's
    keys, the buffer is never empty. It stays in the alphabet
    [{0-9 . + - * /}], does not begin with an operator and has no two
    operators in a row as long as every operator pressed right after a
    non-secret [=] follows a displayed result that is itself such a buffer
    and does not end with an operator. Pressing an operator right after [=]
    makes the buffer the displayed result followed by the operator, which is
    a valid buffer exactly in that case. *)
Theorem buffer_invariant_chaining_valid_results :
  forall ev saved presses s,
    forallb (fun p => is_button (snd p)) presses = true ->
    run ev (mount saved) presses = Some s ->
    Str.chars (expression s) <> [] /\
    (Spec.chains_on_valid_results ev (mount saved) presses = true ->
     Spec.buffer_ok (expression s) = true) /\
    (forall now o, justCalculated s = true -> In o operator_buttons ->
       option_map expression (handleButtonPress ev s now o) = Some (result s ++ o)%string /\
       (Spec.buffer_ok (result s ++ o)%string = true <->
        Spec.buffer_ok (result s) = true /\ Str.ends_with_op (result s) = false)).
Proof.
  intros ev saved presses s Hb Hrun.
  destruct (run_buffer ev presses (mount saved) s Hb Hrun) as [Hne Hok].
  split; [apply Hne; discriminate|split; [intro Hnc; apply Hok; [reflexivity|exact Hnc]|]].
  intros now o Hjc Ho. split; [|exact (buffer_ok_chain (result s) o Ho)].
  destruct (operator_cases o Ho) as (c & -> & Hd & Hc & HC & HD & HE & Hdot).
  unfold handleButtonPress. rewrite HC, HD, HE. unfold input_update.
  rewrite Hjc, test_digit_single, test_op_single, Hd, Hc. reflexivity.
Qed.

(** *** Evaluation of well-formed arithmetic expressions *)

Local Open Scope Z_scope.

Lemma in_alphabet_code (c : ascii) :
  Spec.in_alphabet c = true ->
  ((Z.of_nat (nat_of_ascii c) <? 128) && JsEval.allowed (Spec.code c)
   && negb (Spec.code c =? 215) && negb (Spec.code c =? 247)) = true.
Proof.
  destruct c as [[] [] [] [] [] [] [] []]; intro H; vm_compute in H |- *;
    first [reflexivity | discriminate].
Qed.

Lemma utf8_decode_ascii (l : list ascii) :
  forallb Spec.in_alphabet l = true -> JsEval.utf8_decode l = map Spec.code l.
Proof.
  induction l as [|a l IH]; intro H; [reflexivity|].
  simpl in H. apply andb_true_iff in H as [Ha H].
  pose proof (in_alphabet_code a Ha) as Hc.
  repeat (apply andb_true_iff in Hc as [Hc ?]).
  simpl. rewrite Hc, IH by exact H. reflexivity.
Qed.

Lemma normalize_alphabet (l : list ascii) :
  forallb Spec.in_alphabet l = true ->
  JsEval.normalize (map Spec.code l) = map Spec.code l.
Proof.
  induction l as [|a l IH]; intro H; [reflexivity|].
  simpl in H. apply andb_true_iff in H as [Ha H].
  pose proof (in_alphabet_code a Ha) as Hc.
  repeat (apply andb_true_iff in Hc as [Hc ?]).
  apply negb_true_iff in H0, H1.
  unfold JsEval.normalize in *. simpl. rewrite IH by exact H.
  rewrite H0, H1. reflexivity.
Qed.

Lemma allowed_alphabet (l : list ascii) :
  forallb Spec.in_alphabet l = true -> forallb JsEval.allowed (map Spec.code l) = true.
Proof.
  induction l as [|b m IH]; intro H; [reflexivity|].
  simpl in H |- *. apply andb_true_iff in H as [Hb H].
  pose proof (in_alphabet_code b Hb) as Hc.
  repeat (apply andb_true_iff in Hc as [Hc ?]). rewrite H2, IH by exact H. reflexivity.
Qed.

Lemma whitelisted_alphabet (l : list ascii) :
  l <> [] -> forallb Spec.in_alphabet l = true ->
  JsEval.whitelisted (map Spec.code l) = true.
Proof.
  intros Hne H. destruct l as [|a l]; [contradiction|].
  exact (allowed_alphabet (a :: l) H).
Qed.

Lemma digit_in_alphabet (c : ascii) : Chars.is_digit c = true -> Spec.in_alphabet c = true.
Proof. intro H. unfold Spec.in_alphabet. rewrite H. reflexivity. Qed.

Lemma digits_in_alphabet (l : list ascii) :
  forallb Chars.is_digit l = true -> forallb Spec.in_alphabet l = true.
Proof.
  induction l as [|a l IH]; intro H; [reflexivity|].
  simpl in *. apply andb_true_iff in H as [Ha H].
  rewrite (digit_in_alphabet a Ha), IH by exact H. reflexivity.
Qed.

Lemma numeral_chars_alphabet (n : Spec.numeral) :
  Spec.numeral_ok n = true -> forallb Spec.in_alphabet (Spec.numeral_chars n) = true.
Proof.
  unfold Spec.numeral_ok, Spec.numeral_chars.
  destruct (Spec.int_part n) as [|c r]; [discriminate|].
  intro H. apply andb_true_iff in H as [H Hf]. apply andb_true_iff in H as [Hi _].
  rewrite forallb_app, (digits_in_alphabet _ Hi).
  destruct (Spec.frac_part n) as [fs|]; [|reflexivity].
  simpl. rewrite (digits_in_alphabet _ Hf). reflexivity.
Qed.

Lemma op_char_alphabet (o : Spec.arith_op) : Spec.in_alphabet (Spec.op_char o) = true.
Proof. destruct o; reflexivity. Qed.

Lemma render_chars_alphabet first rest :
  Spec.numeral_ok first = true -> forallb Spec.numeral_ok (map snd rest) = true ->
  forallb Spec.in_alphabet
    (Spec.numeral_chars first ++
     flat_map (fun p => Spec.op_char (fst p) :: Spec.numeral_chars (snd p)) rest) = true.
Proof.
  intros Hf Hr. rewrite forallb_app, (numeral_chars_alphabet first Hf). simpl.
  induction rest as [|[o n] rest IH]; [reflexivity|].
  simpl in Hr |- *. apply andb_true_iff in Hr as [Hn Hr].
  rewrite forallb_app, op_char_alphabet, (numeral_chars_alphabet n Hn), IH by exact Hr.
  reflexivity.
Qed.

Lemma render_codes first rest :
  map Spec.code
    (Spec.numeral_chars first ++
     flat_map (fun p => Spec.op_char (fst p) :: Spec.numeral_chars (snd p)) rest) =
  numeral_codes first ++ rest_codes rest.
Proof.
  rewrite map_app. f_equal.
  induction rest as [|[o n] rest IH]; [reflexivity|].
  simpl. rewrite map_app, IH. reflexivity.
Qed.

(** **** Lexing *)

Lemma dec_digit_cases (c : Z) :
  JsEval.is_dec_digit c = true ->
  c = 48 \/ c = 49 \/ c = 50 \/ c = 51 \/ c = 52 \/ c = 53 \/ c = 54 \/ c = 55 \/ c = 56 \/ c = 57.
Proof.
  unfold JsEval.is_dec_digit. intro H. apply andb_true_iff in H as [H1 H2].
  apply Z.leb_le in H1, H2. lia.
Qed.

Lemma digit_code (c : ascii) : Chars.is_digit c = true -> JsEval.is_dec_digit (Spec.code c) = true.
Proof.
  unfold Chars.is_digit, JsEval.is_dec_digit, Spec.code. intro H.
  apply andb_true_iff in H as [H1 H2]. apply Nat.leb_le in H1, H2.
  apply andb_true_iff. split; apply Z.leb_le; lia.
Qed.

Lemma digit_codes (l : list ascii) :
  forallb Chars.is_digit l = true -> forallb JsEval.is_dec_digit (map Spec.code l) = true.
Proof.
  induction l as [|a l IH]; intro H; [reflexivity|].
  simpl in *. apply andb_true_iff in H as [Ha H]. rewrite digit_code, IH; auto.
Qed.

Lemma take_digits_app (ds x : list Z) :
  forallb JsEval.is_dec_digit ds = true -> JsEval.is_dec_digit (hd 0 x) = false ->
  JsEval.take_digits (ds ++ x) = (ds, x).
Proof.
  intros Hd Hx. induction ds as [|d ds IH].
  - destruct x as [|c x]; [reflexivity|]. simpl in Hx |- *. rewrite Hx. reflexivity.
  - simpl in Hd. apply andb_true_iff in Hd as [Hd Hds].
    simpl. rewrite Hd, IH by exact Hds. reflexivity.
Qed.

Lemma after_numeral_not_digit (x : list Z) :
  after_numeral x -> JsEval.is_dec_digit (hd 0 x) = false.
Proof.
  destruct x as [|c x]; [reflexivity|]. simpl.
  intros [ -> | [ -> | [ -> | -> ]]]; reflexivity.
Qed.

Lemma with_fraction_numeral (ids : list Z) (frac : option (list Z)) (x : list Z) :
  match frac with None => True | Some fs => forallb JsEval.is_dec_digit fs = true end ->
  after_numeral x ->
  JsEval.with_fraction ids (match frac with None => [] | Some fs => 46 :: fs end ++ x) =
  (JsEval.decimal_literal ids (match frac with None => [] | Some fs => fs end), x).
Proof.
  intros Hf Hx. destruct frac as [fs|].
  - simpl. rewrite take_digits_app by (auto using after_numeral_not_digit). reflexivity.
  - simpl. destruct x as [|c x]; [reflexivity|].
    simpl in Hx. destruct Hx as [ -> | [ -> | [ -> | -> ]]]; reflexivity.
Qed.

Lemma numeral_codes_split (n : Spec.numeral) :
  numeral_codes n =
  map Spec.code (Spec.int_part n) ++
  match option_map (map Spec.code) (Spec.frac_part n) with
  | None => [] | Some fs => 46 :: fs end.
Proof.
  unfold numeral_codes, Spec.numeral_chars. rewrite map_app.
  destruct (Spec.frac_part n); reflexivity.
Qed.

Lemma code_zero (c : ascii) : (Spec.code c =? 48) = Ascii.eqb c "0"%char.
Proof.
  unfold Spec.code. destruct (Ascii.eqb c "0"%char) eqn:E.
  - apply Ascii.eqb_eq in E. subst. reflexivity.
  - apply Z.eqb_neq. intro H. apply Ascii.eqb_neq in E. apply E.
    rewrite <- (ascii_nat_embedding c). replace (nat_of_ascii c) with 48%nat by lia.
    reflexivity.
Qed.

Lemma scan_numeral (n : Spec.numeral) (x : list Z) :
  Spec.numeral_ok n = true -> after_numeral x ->
  JsEval.scan_number (numeral_codes n ++ x) = (Spec.numeral_value n, x).
Proof.
  intros Hn Hx. rewrite numeral_codes_split. unfold Spec.numeral_value.
  unfold Spec.numeral_ok in Hn.
  assert (Hfr : match option_map (map Spec.code) (Spec.frac_part n) with
                | None => True | Some fs => forallb JsEval.is_dec_digit fs = true end).
  { destruct (Spec.int_part n); [discriminate|].
    apply andb_true_iff in Hn as [_ Hf].
    destruct (Spec.frac_part n) as [fs|]; [simpl; apply digit_codes; exact Hf|exact I]. }
  replace (match Spec.frac_part n with Some fs => map Spec.code fs | None => [] end)
    with (match option_map (map Spec.code) (Spec.frac_part n) with
          | None => [] | Some fs => fs end)
    by (destruct (Spec.frac_part n); reflexivity).
  destruct (Spec.int_part n) as [|c r]; [discriminate|].
  apply andb_true_iff in Hn as [Hn _]. apply andb_true_iff in Hn as [Hd Hz].
  rewrite <- code_zero in Hz.
  set (F := match option_map (map Spec.code) (Spec.frac_part n) with
            | None => [] | Some fs => 46 :: fs end) in *.
  set (fr := option_map (map Spec.code) (Spec.frac_part n)) in *.
  assert (HF : after_numeral (F ++ x) \/ (exists fs, F = 46 :: fs)).
  { unfold F. destruct fr; [right; eexists; reflexivity|left; exact Hx]. }
  simpl map. simpl app. unfold JsEval.scan_number.
  destruct (Spec.code c =? 48) eqn:H48.
  - simpl in Hz. destruct r as [|c' r]; [|discriminate].
    simpl map. simpl app.
    assert (Hds : JsEval.take_digits (F ++ x) = ([], F ++ x)).
    { destruct HF as [HF|[fs HF]].
      - exact (take_digits_app [] (F ++ x) eq_refl (after_numeral_not_digit _ HF)).
      - rewrite HF. reflexivity. }
    rewrite Hds. apply Z.eqb_eq in H48. rewrite H48.
    exact (with_fraction_numeral [48] fr x Hfr Hx).
  - apply digit_codes in Hd. simpl map in Hd.
    replace (Spec.code c :: (map Spec.code r ++ F) ++ x)
      with ((Spec.code c :: map Spec.code r) ++ (F ++ x))
      by (simpl; rewrite app_assoc; reflexivity).
    rewrite take_digits_app.
    + exact (with_fraction_numeral _ fr x Hfr Hx).
    + exact Hd.
    + destruct HF as [HF|[fs HF]]; [exact (after_numeral_not_digit _ HF)|].
      rewrite HF. reflexivity.
Qed.

Lemma lex_aux_digit f d nl c r :
  JsEval.is_dec_digit c = true ->
  JsEval.lex_aux (S f) d nl (c :: r) =
  let '(v, r') := JsEval.scan_number (c :: r) in
  JsEval.push nl (JsEval.TNum v) (JsEval.lex_aux f true false r').
Proof.
  intro H. destruct (dec_digit_cases c H) as
    [ -> | [ -> | [ -> | [ -> | [ -> | [ -> | [ -> | [ -> | [ -> | -> ]]]]]]]]];
    reflexivity.
Qed.

Lemma numeral_codes_head (n : Spec.numeral) :
  Spec.numeral_ok n = true ->
  exists c t, numeral_codes n = c :: t /\ JsEval.is_dec_digit c = true.
Proof.
  intro Hn. rewrite numeral_codes_split. unfold Spec.numeral_ok in Hn.
  destruct (Spec.int_part n) as [|c r]; [discriminate|].
  apply andb_true_iff in Hn as [Hn _]. apply andb_true_iff in Hn as [Hd _].
  simpl in Hd. apply andb_true_iff in Hd as [Hd _].
  eexists; eexists; split; [reflexivity|]. apply digit_code. exact Hd.
Qed.

Lemma lex_numeral f d n x :
  Spec.numeral_ok n = true -> after_numeral x ->
  JsEval.lex_aux (S f) d false (numeral_codes n ++ x) =
  JsEval.push false (JsEval.TNum (Spec.numeral_value n)) (JsEval.lex_aux f true false x).
Proof.
  intros Hn Hx. destruct (numeral_codes_head n Hn) as [c [t [Hct Hc]]].
  pose proof (scan_numeral n x Hn Hx) as Hs. rewrite Hct in Hs |- *.
  change ((c :: t) ++ x) with (c :: (t ++ x)). rewrite lex_aux_digit by exact Hc.
  change (c :: t ++ x) with ((c :: t) ++ x). rewrite Hs. reflexivity.
Qed.

Lemma lex_op f o c r :
  JsEval.is_dec_digit c = true ->
  JsEval.lex_aux (S f) true false (Spec.code (Spec.op_char o) :: c :: r) =
  JsEval.push false (op_token o) (JsEval.lex_aux f false false (c :: r)).
Proof.
  intro H. destruct (dec_digit_cases c H) as
    [ -> | [ -> | [ -> | [ -> | [ -> | [ -> | [ -> | [ -> | [ -> | -> ]]]]]]]]];
    destruct o; reflexivity.
Qed.

Lemma after_numeral_rest_codes rest : after_numeral (rest_codes rest).
Proof.
  destruct rest as [|[o n] rest]; [exact I|]. simpl.
  destruct o; [left|right; left|right; right; left|right; right; right]; reflexivity.
Qed.

Lemma lex_rest rest : forall f,
  forallb Spec.numeral_ok (map snd rest) = true ->
  (List.length (rest_codes rest) < f)%nat ->
  JsEval.lex_aux f true false (rest_codes rest) = JsEval.LexOk (rest_tokens (rest_values rest)).
Proof.
  induction rest as [|[o n] rest IH]; intros f Hok Hlen.
  - destruct f; [simpl in Hlen; lia|reflexivity].
  - simpl in Hok. apply andb_true_iff in Hok as [Hn Hok].
    destruct (numeral_codes_head n Hn) as [c [t [Hct Hc]]].
    change (rest_codes ((o, n) :: rest))
      with (Spec.code (Spec.op_char o) :: numeral_codes n ++ rest_codes rest) in *.
    simpl List.length in Hlen. rewrite length_app in Hlen.
    rewrite Hct in Hlen |- *. simpl List.length in Hlen.
    destruct f as [|[|f]]; [lia|lia|].
    change ((c :: t) ++ rest_codes rest) with (c :: (t ++ rest_codes rest)).
    rewrite (lex_op (S f) o c (t ++ rest_codes rest) Hc).
    change (c :: t ++ rest_codes rest) with ((c :: t) ++ rest_codes rest).
    rewrite <- Hct, lex_numeral by (exact Hn || apply after_numeral_rest_codes).
    rewrite IH by (exact Hok || lia). reflexivity.
Qed.

Lemma lex_expression first rest :
  Spec.numeral_ok first = true -> forallb Spec.numeral_ok (map snd rest) = true ->
  JsEval.lex (numeral_codes first ++ rest_codes rest) =
  JsEval.LexOk ((false, JsEval.TNum (Spec.numeral_value first)) :: rest_tokens (rest_values rest)).
Proof.
  intros Hf Hr. unfold JsEval.lex.
  rewrite lex_numeral by (exact Hf || apply after_numeral_rest_codes).
  rewrite lex_rest; [reflexivity|exact Hr|].
  rewrite length_app. destruct (numeral_codes_head first Hf) as [c [t [Hct _]]].
  rewrite Hct. simpl. lia.
Qed.

(** **** Parsing *)

Lemma rest_tokens_cons o v vs :
  rest_tokens ((o, v) :: vs) =
  (false, op_token o) :: (false, JsEval.TNum v) :: rest_tokens vs.
Proof. reflexivity. Qed.

Lemma p_call_rest_tokens f c vs :
  JsEval.p_call_rest (S f) c (rest_tokens vs) = JsEval.POk c (rest_tokens vs).
Proof. destruct vs as [|[o v] vs]; [reflexivity|]. destruct o; reflexivity. Qed.

Lemma p_unary_num f b v vs :
  JsEval.p_unary (S (S f)) ((b, JsEval.TNum v) :: rest_tokens vs) =
  JsEval.POk (JsEval.JNum v) (rest_tokens vs).
Proof.
  transitivity (JsEval.p_call_rest (S f) (JsEval.JNum v) (rest_tokens vs));
    [reflexivity|apply p_call_rest_tokens].
Qed.

Lemma p_term_rest_run vs : forall f acc,
  (List.length vs + 3 <= f)%nat ->
  JsEval.p_term_rest f (JsEval.JNum acc) (rest_tokens vs) =
  JsEval.POk (JsEval.JNum (fst (mul_run acc vs))) (rest_tokens (snd (mul_run acc vs))).
Proof.
  induction vs as [|[o v] vs IH]; intros f acc Hf;
    (destruct f as [|[|[|f]]]; [simpl in Hf; lia..|]); [reflexivity|].
  simpl List.length in Hf. rewrite rest_tokens_cons.
  destruct o; try reflexivity.
  - change (JsEval.p_term_rest (S (S (S f))) (JsEval.JNum acc)
              ((false, op_token Spec.Mul) :: (false, JsEval.TNum v) :: rest_tokens vs))
      with (match JsEval.p_unary (S (S f)) ((false, JsEval.TNum v) :: rest_tokens vs) with
            | JsEval.POk v' r' =>
                JsEval.p_term_rest (S (S f)) (JsEval.binop PrimFloat.mul (JsEval.JNum acc) v') r'
            | o => o end).
    rewrite p_unary_num. apply IH. lia.
  - change (JsEval.p_term_rest (S (S (S f))) (JsEval.JNum acc)
              ((false, op_token Spec.Div) :: (false, JsEval.TNum v) :: rest_tokens vs))
      with (match JsEval.p_unary (S (S f)) ((false, JsEval.TNum v) :: rest_tokens vs) with
            | JsEval.POk v' r' =>
                JsEval.p_term_rest (S (S f)) (JsEval.binop PrimFloat.div (JsEval.JNum acc) v') r'
            | o => o end).
    rewrite p_unary_num. apply IH. lia.
Qed.

Lemma p_term_num f v vs :
  (List.length vs + 5 <= f)%nat ->
  JsEval.p_term f ((false, JsEval.TNum v) :: rest_tokens vs) =
  JsEval.POk (JsEval.JNum (fst (mul_run v vs))) (rest_tokens (snd (mul_run v vs))).
Proof.
  intro Hf. destruct f as [|[|[|f]]]; [lia..|].
  change (JsEval.p_term (S (S (S f))) ((false, JsEval.TNum v) :: rest_tokens vs))
    with (match JsEval.p_unary (S (S f)) ((false, JsEval.TNum v) :: rest_tokens vs) with
          | JsEval.POk v' r => JsEval.p_term_rest (S (S f)) v' r | o => o end).
  rewrite p_unary_num. apply p_term_rest_run. lia.
Qed.

Lemma mul_run_prec sum t vs :
  Spec.prec_eval sum t vs = Spec.prec_eval sum (fst (mul_run t vs)) (snd (mul_run t vs)).
Proof.
  revert t. induction vs as [|[o v] vs IH]; intro t; [reflexivity|].
  simpl mul_run. destruct (Spec.is_mul_op o) eqn:Ho.
  - simpl Spec.prec_eval at 1. rewrite Ho. apply IH.
  - reflexivity.
Qed.

Lemma mul_run_additive t vs : additive_head (snd (mul_run t vs)) = true.
Proof.
  revert t. induction vs as [|[o v] vs IH]; intro t; [reflexivity|].
  simpl. destruct (Spec.is_mul_op o) eqn:Ho; [apply IH|]. simpl. rewrite Ho. reflexivity.
Qed.

Lemma mul_run_length t vs : (List.length (snd (mul_run t vs)) <= List.length vs)%nat.
Proof.
  revert t. induction vs as [|[o v] vs IH]; intro t; [simpl; lia|].
  simpl. destruct (Spec.is_mul_op o); [specialize (IH (Spec.apply_op o t v)); lia|simpl; lia].
Qed.

Lemma prec_close o acc m vs :
  additive_head vs = true ->
  Spec.prec_eval (Some (o, acc)) m vs = Spec.prec_eval None (Spec.apply_op o acc m) vs.
Proof.
  destruct vs as [|[o' v] vs]; intro H; [reflexivity|].
  simpl in H |- *. apply negb_true_iff in H. rewrite H. reflexivity.
Qed.

Lemma p_expr_rest_run n : forall vs f acc,
  (List.length vs <= n)%nat -> additive_head vs = true ->
  (List.length vs + 6 <= f)%nat ->
  JsEval.p_expr_rest f (JsEval.JNum acc) (rest_tokens vs) =
  JsEval.POk (JsEval.JNum (Spec.prec_eval None acc vs)) [].
Proof.
  induction n as [|n IH]; intros vs f acc Hn Hadd Hf;
    (destruct vs as [|[o v] vs]; [destruct f; [lia|reflexivity]|]);
    [simpl in Hn; lia|].
  simpl List.length in Hn, Hf. destruct f as [|f]; [lia|].
  assert (Hstep : forall (op : float -> float -> float) t,
    JsEval.p_expr_rest (S f) (JsEval.JNum acc) ((false, t) :: (false, JsEval.TNum v) :: rest_tokens vs) =
    match JsEval.p_term f ((false, JsEval.TNum v) :: rest_tokens vs) with
    | JsEval.POk v' r' => JsEval.p_expr_rest f (JsEval.binop op (JsEval.JNum acc) v') r'
    | o => o end ->
    JsEval.p_expr_rest (S f) (JsEval.JNum acc) ((false, t) :: (false, JsEval.TNum v) :: rest_tokens vs) =
    JsEval.POk (JsEval.JNum (Spec.prec_eval None (op acc (fst (mul_run v vs))) (snd (mul_run v vs)))) []).
  { intros op t E. rewrite E, p_term_num by lia. simpl JsEval.binop.
    apply IH; [pose proof (mul_run_length v vs); lia|apply mul_run_additive|
               pose proof (mul_run_length v vs); lia]. }
  rewrite rest_tokens_cons.
  destruct o; simpl in Hadd; try discriminate.
  - rewrite (Hstep PrimFloat.add) by reflexivity. do 2 f_equal.
    change (Spec.prec_eval None acc ((Spec.Add, v) :: vs))
      with (Spec.prec_eval (Some (Spec.Add, acc)) v vs).
    rewrite (mul_run_prec (Some (Spec.Add, acc)) v vs).
    rewrite prec_close by apply mul_run_additive. reflexivity.
  - rewrite (Hstep PrimFloat.sub) by reflexivity. do 2 f_equal.
    change (Spec.prec_eval None acc ((Spec.Sub, v) :: vs))
      with (Spec.prec_eval (Some (Spec.Sub, acc)) v vs).
    rewrite (mul_run_prec (Some (Spec.Sub, acc)) v vs).
    rewrite prec_close by apply mul_run_additive. reflexivity.
Qed.

Lemma p_expr_num f v vs :
  (List.length vs + 8 <= f)%nat ->
  JsEval.p_expr f ((false, JsEval.TNum v) :: rest_tokens vs) =
  JsEval.POk (JsEval.JNum (Spec.prec_eval None v vs)) [].
Proof.
  intro Hf. destruct f as [|f]; [lia|].
  change (JsEval.p_expr (S f) ((false, JsEval.TNum v) :: rest_tokens vs))
    with (match JsEval.p_term f ((false, JsEval.TNum v) :: rest_tokens vs) with
          | JsEval.POk v' r => JsEval.p_expr_rest f v' r | o => o end).
  rewrite p_term_num by lia. rewrite mul_run_prec.
  apply (p_expr_rest_run (List.length vs)); pose proof (mul_run_length v vs);
    [lia|apply mul_run_additive|lia].
Qed.

Lemma length_rest_tokens vs : List.length (rest_tokens vs) = (2 * List.length vs)%nat.
Proof. induction vs as [|[o v] vs IH]; [reflexivity|]. simpl. rewrite IH. lia. Qed.

Lemma run_body_expression v vs :
  JsEval.run_body ((false, JsEval.TNum v) :: rest_tokens vs) =
  JsEval.RetNum (Spec.prec_eval None v vs).
Proof.
  unfold JsEval.run_body. rewrite p_expr_num; [reflexivity|].
  unfold JsEval.body_fuel. simpl List.length. rewrite length_rest_tokens. lia.
Qed.

Lemma numeral_chars_nonempty n : Spec.numeral_ok n = true -> Spec.numeral_chars n <> [].
Proof.
  unfold Spec.numeral_ok, Spec.numeral_chars. destruct (Spec.int_part n); [discriminate|].
  intros _. discriminate.
Qed.

Lemma evaluate_rendered first rest :
  Spec.numeral_ok first = true -> forallb Spec.numeral_ok (map snd rest) = true ->
  JsEval.evaluateExpression (Spec.render first rest) = Some (Spec.expected_result first rest).
Proof.
  intros Hf Hr. pose proof (render_chars_alphabet first rest Hf Hr) as HL.
  unfold JsEval.evaluateExpression, Spec.render, JsEval.code_points. cbv zeta.
  rewrite list_ascii_of_string_of_list_ascii, utf8_decode_ascii, normalize_alphabet by exact HL.
  rewrite whitelisted_alphabet; [|intro E; apply app_eq_nil in E as [E _];
                                  exact (numeral_chars_nonempty first Hf E)|exact HL].
  simpl negb. cbv iota. unfold JsEval.js_call.
  rewrite render_codes, lex_expression by assumption. rewrite run_body_expression.
  unfold Spec.expected_result, rest_values. destruct (PrimFloat.is_finite _); reflexivity.
Qed.

(** For every expression of numerals without a leading zero (["0"], or
    digits not starting with [0], each with an optional fraction) separated
    by [+ - * /], [evaluateExpression] gives the two-level precedence value
    of [Spec.prec_eval] ([*] and [/] before [+] and [-], left to right within
    a level, each numeral read as its JavaScript literal), rounded and
    printed, or ["Error"] when that value is not finite; in particular
    ["2+3*4"] gives ["14"] and ["2*3+4"] gives ["10"]. *)
Theorem precedence_left_to_right :
  (forall first rest,
     Spec.numeral_ok first = true -> forallb Spec.numeral_ok (map snd rest) = true ->
     JsEval.evaluateExpression (Spec.render first rest) = Some (Spec.expected_result first rest)) /\
  JsEval.evaluateExpression "2+3*4" = Some "14" /\
  JsEval.evaluateExpression "2*3+4" = Some "10".
Proof.
  split; [exact evaluate_rendered|split; vm_compute; reflexivity].
Qed.

(** C3 (failing input): an operand with a leading zero, which the keypad
    produces (a lone ["0"] gives way to the next digit only when it is the
    whole buffer), is not read as a decimal numeral. [5] [+] [0] [7] [.] [5]
    [*] [2] [=] leaves ["5+07.5*2"] and shows ["Error"] ([07] is a legacy
    octal literal, which takes no fraction), where two-level precedence
    gives ["20"]; [1] [+] [0] [1] [0] [*] [2] [=] leaves ["1+010*2"] and
    shows ["17"] ([010] is octal eight), where it gives ["21"]. *)
Lemma leading_zero_operands_misread :
  option_map (fun s => (expression s, result s))
    (run JsEval.evaluateExpression (mount []) [(Instants 1 1, "5"); (Instants 2 2, "+"); (Instants 3 3, "0"); (Instants 4 4, "7"); (Instants 5 5, "."); (Instants 6 6, "5"); (Instants 7 7, "*"); (Instants 8 8, "2"); (Instants 9 9, "=")]) = Some ("5+07.5*2", "Error") /\
  Spec.render (Spec.Numeral ["5"%char] None)
    [(Spec.Add, Spec.Numeral ["0"%char; "7"%char] (Some ["5"%char]));
     (Spec.Mul, Spec.Numeral ["2"%char] None)] = "5+07.5*2" /\
  Spec.expected_result (Spec.Numeral ["5"%char] None)
    [(Spec.Add, Spec.Numeral ["0"%char; "7"%char] (Some ["5"%char]));
     (Spec.Mul, Spec.Numeral ["2"%char] None)] = "20" /\
  option_map (fun s => (expression s, result s))
    (run JsEval.evaluateExpression (mount []) [(Instants 1 1, "1"); (Instants 2 2, "+"); (Instants 3 3, "0"); (Instants 4 4, "1"); (Instants 5 5, "0"); (Instants 6 6, "*"); (Instants 7 7, "2"); (Instants 8 8, "=")]) = Some ("1+010*2", "17") /\
  Spec.render (Spec.Numeral ["1"%char] None)
    [(Spec.Add, Spec.Numeral ["0"%char; "1"%char; "0"%char] None);
     (Spec.Mul, Spec.Numeral ["2"%char] None)] = "1+010*2" /\
  Spec.expected_result (Spec.Numeral ["1"%char] None)
    [(Spec.Add, Spec.Numeral ["0"%char; "1"%char; "0"%char] None);
     (Spec.Mul, Spec.Numeral ["2"%char] None)] = "21".
Proof. vm_compute. repeat split. Qed.

(** *** When [evaluateExpression] gives ["Error"] *)

Lemma no_E_app (a b : string) : no_E (a ++ b)%string = no_E a && no_E b.
Proof. unfold no_E. rewrite chars_app, forallb_app. reflexivity. Qed.

Lemma no_E_app_true (a b : string) : no_E a = true -> no_E b = true -> no_E (a ++ b)%string = true.
Proof. intros Ha Hb. rewrite no_E_app, Ha, Hb. reflexivity. Qed.

Lemma no_E_substring (s : string) : forall m n, no_E s = true -> no_E (substring m n s) = true.
Proof.
  induction s as [|c s IH]; intros m n H; destruct m, n; try reflexivity.
  - unfold no_E in *. simpl in *. apply andb_true_iff in H as [Hc H].
    rewrite Hc. simpl. exact (IH 0%nat n H).
  - simpl. apply IH. unfold no_E in *. simpl in H. apply andb_true_iff in H as [_ H]. exact H.
  - simpl. apply IH. unfold no_E in *. simpl in H. apply andb_true_iff in H as [_ H]. exact H.
Qed.

Lemma no_E_zeros n : no_E (JsNumber.zeros n) = true.
Proof. induction n as [|n IH]; [reflexivity|]. simpl. exact IH. Qed.

Lemma digits_of_pos_S f p acc :
  digits_of_pos (S f) p acc =
  let acc' := String (ascii_of_nat (48 + Z.to_nat (Z.pos p mod 10))) acc in
  match Z.pos p / 10 with Zpos q' => digits_of_pos f q' acc' | _ => acc' end.
Proof. reflexivity. Qed.

Lemma no_E_digits_of_pos f : forall p acc, no_E acc = true -> no_E (digits_of_pos f p acc) = true.
Proof.
  induction f as [|f IH]; intros p acc H; [exact H|]. rewrite digits_of_pos_S. cbv zeta.
  set (d := ascii_of_nat (48 + Z.to_nat (Z.pos p mod 10))).
  assert (Hacc : no_E (String d acc) = true).
  { unfold no_E, Str.chars in *. cbn [list_ascii_of_string forallb]. rewrite H, andb_true_r.
    pose proof (Z.mod_pos_bound (Z.pos p) 10 ltac:(lia)) as Hb.
    apply negb_true_iff, Ascii.eqb_neq. intro E. unfold d in E.
    apply (f_equal nat_of_ascii) in E. rewrite nat_ascii_embedding in E by lia.
    change (nat_of_ascii "E") with 69%nat in E. lia. }
  clearbody d.
  destruct (Z.pos p / 10) as [|q|q]; [exact Hacc|apply IH; exact Hacc|exact Hacc].
Qed.

Lemma no_E_Z_to_string z : no_E (Z_to_string z) = true.
Proof.
  destruct z as [|p|p]; [reflexivity| |]; unfold Z_to_string.
  - apply no_E_digits_of_pos. reflexivity.
  - apply no_E_app_true; [reflexivity|]. apply no_E_digits_of_pos. reflexivity.
Qed.

Lemma no_E_layout s n k : no_E (JsNumber.layout s n k) = true.
Proof.
  assert (Hd : forall z, no_E (JsNumber.digits z) = true) by apply no_E_Z_to_string.
  unfold JsNumber.layout. cbv zeta.
  repeat match goal with
         | |- context [if ?b then _ else _] => destruct b
         end;
  repeat first [ apply no_E_app_true | apply no_E_substring | apply Hd
               | apply no_E_zeros | reflexivity ].
Qed.

Lemma no_E_to_string x : no_E (JsNumber.to_string x) = true.
Proof.
  unfold JsNumber.to_string. destruct (Prim2SF x) as [s|s| |s m e]; try reflexivity.
  - destruct s; reflexivity.
  - destruct (JsNumber.exact m e) as [num den].
    destruct (JsNumber.shortest _ _ _ _ _ _) as [[s0 n0] k].
    apply no_E_app_true; [destruct s; reflexivity|apply no_E_layout].
Qed.

Lemma format_result_not_Error r : JsEval.format_result r <> "Error".
Proof.
  unfold JsEval.format_result. intro E.
  pose proof (no_E_to_string (PrimFloat.div (JsNumber.math_round (PrimFloat.mul r JsEval.billion))
                                            JsEval.billion)) as H.
  rewrite E in H. discriminate.
Qed.

(** C4 (failing inputs): ["Error"] is not limited to disallowed characters,
    unparsable arithmetic and non-finite values. A line feed then ["5"]
    passes the whitelist and is the number 5, yet gives ["Error"]: the
    generated body [return] + line feed + [5] returns [undefined]. The
    keypad's ["5+07.5*2"] passes the whitelist and is well-formed arithmetic
    of finite value 20, yet gives ["Error"]: [07.5] is a JavaScript syntax
    error. And ["5//3"], which is not well-formed arithmetic, gives ["5"]:
    [//] starts a comment. *)
Lemma error_taxonomy_violated :
  JsEval.whitelisted (JsEval.normalize (JsEval.code_points (String (ascii_of_nat 10) "5"))) = true /\
  JsEval.js_call (JsEval.normalize (JsEval.code_points (String (ascii_of_nat 10) "5")))
    = Some JsEval.RetUndefined /\
  JsEval.evaluateExpression (String (ascii_of_nat 10) "5") = Some "Error" /\
  JsEval.whitelisted (JsEval.normalize (JsEval.code_points "5+07.5*2")) = true /\
  Spec.render (Spec.Numeral ["5"%char] None)
    [(Spec.Add, Spec.Numeral ["0"%char; "7"%char] (Some ["5"%char]));
     (Spec.Mul, Spec.Numeral ["2"%char] None)] = "5+07.5*2" /\
  Spec.expected_result (Spec.Numeral ["5"%char] None)
    [(Spec.Add, Spec.Numeral ["0"%char; "7"%char] (Some ["5"%char]));
     (Spec.Mul, Spec.Numeral ["2"%char] None)] = "20" /\
  JsEval.js_call (JsEval.normalize (JsEval.code_points "5+07.5*2")) = Some JsEval.BodySyntaxError /\
  JsEval.evaluateExpression "5+07.5*2" = Some "Error" /\
  JsEval.evaluateExpression "5//3" = Some "5".
Proof. vm_compute. repeat split. Qed.

(** When the generated function returns a finite number, [evaluateExpression]
    shows it rounded to nine decimals, and that string is never ["Error"]:
    an [=] press on such a buffer (not the secret code) always records the
    result in the history. *)
Theorem finite_results_never_Error :
  forall e f,
    JsEval.whitelisted (JsEval.normalize (JsEval.code_points e)) = true ->
    JsEval.js_call (JsEval.normalize (JsEval.code_points e)) = Some (JsEval.RetNum f) ->
    PrimFloat.is_finite f = true ->
    JsEval.evaluateExpression e = Some (JsEval.format_result f) /\
    JsEval.format_result f <> "Error" /\
    (forall s now, expression s = e -> checkSecretCode e = false ->
       option_map history (handleButtonPress JsEval.evaluateExpression s now "=") =
       Some (firstn 10 (HistoryItem.mk (Z_to_string (id_read now)) e (JsEval.format_result f)
                                       (ts_read now) :: history s))).
Proof.
  intros e f W J F.
  assert (Hev : JsEval.evaluateExpression e = Some (JsEval.format_result f))
    by (unfold JsEval.evaluateExpression; rewrite W, J, F; reflexivity).
  pose proof (format_result_not_Error f) as Hne.
  split; [exact Hev|split; [exact Hne|]].
  intros s now He Hsec. unfold handleButtonPress. cbn [String.eqb Ascii.eqb Bool.eqb].
  rewrite He, Hsec. unfold evaluate_and_record. rewrite He, Hev.
  apply String.eqb_neq in Hne. rewrite Hne. reflexivity.
Qed.

(** *** The calculator's keypad, history ledger and persisted copy *)

Lemma press_input ev s now v :
  String.eqb v "C" = false -> String.eqb v "DEL" = false -> String.eqb v "=" = false ->
  handleButtonPress ev s now v =
  Some (mkState (fst (input_update (expression s) (result s) (justCalculated s) v))
                (result s) (history s) false (stored_history s) (routes s)).
Proof.
  intros HC HD HE. unfold handleButtonPress. rewrite HC, HD, HE.
  unfold input_update.
  destruct (justCalculated s && Str.test_digit v); [reflexivity|].
  destruct (justCalculated s && Str.test_op v); reflexivity.
Qed.

Lemma chars_inj (a b : string) : Str.chars a = Str.chars b -> a = b.
Proof.
  intro H. rewrite <- (string_of_list_ascii_of_string a), <- (string_of_list_ascii_of_string b).
  unfold Str.chars in H. rewrite H. reflexivity.
Qed.

Lemma drop_last_snoc p c : Str.drop_last (p ++ String c "") = p.
Proof.
  apply chars_inj. rewrite chars_drop_last, chars_app. simpl.
  apply removelast_last.
Qed.

Lemma del_value p c : p <> "" ->
  (if (String.length (p ++ String c "") <=? 1)%nat then "0" else Str.drop_last (p ++ String c "")) = p.
Proof.
  intro Hp. rewrite drop_last_snoc.
  destruct p as [|a p]; [congruence|].
  rewrite length_chars, chars_app. simpl. rewrite length_app. simpl.
  destruct (List.length (Str.chars p) + 1 <=? 0)%nat eqn:E;
    [apply Nat.leb_le in E; lia|reflexivity].
Qed.

Lemma press_del ev s now :
  handleButtonPress ev s now "DEL" =
  Some (mkState (if (String.length (expression s) <=? 1)%nat then "0"
                 else Str.drop_last (expression s))
                (result s) (history s) false (stored_history s) (routes s)).
Proof. reflexivity. Qed.

Lemma digit_cases d : In d digit_buttons ->
  exists c, d = String c "" /\ Chars.is_digit c = true /\ Chars.is_op c = false /\
            String.eqb d "C" = false /\ String.eqb d "DEL" = false /\ String.eqb d "=" = false /\
            String.eqb d "." = false.
Proof.
  cbv [digit_buttons In]. intro H.
  repeat (destruct H as [<-|H]; [eexists; repeat split; reflexivity|]). contradiction.
Qed.

Lemma iu_digit prev r c :
  Chars.is_digit c = true -> Chars.is_op c = false -> String.eqb (String c "") "." = false ->
  fst (input_update prev r false (String c "")) =
  if String.eqb prev "0" then String c "" else (prev ++ String c "")%string.
Proof.
  intros Hd Ho Hdot. unfold input_update. rewrite test_digit_single, test_op_single, Hd, Ho, Hdot.
  cbn [andb fst]. destruct (String.eqb prev "0"); [reflexivity|].
  rewrite andb_false_r. reflexivity.
Qed.

Lemma iu_op prev r c :
  Chars.is_digit c = false -> Chars.is_op c = true -> String.eqb (String c "") "." = false ->
  fst (input_update prev r false (String c "")) =
  if Str.ends_with_op prev then (Str.drop_last prev ++ String c "")%string
  else (prev ++ String c "")%string.
Proof.
  intros Hd Ho Hdot. unfold input_update. rewrite test_digit_single, test_op_single, Hd, Ho, Hdot.
  cbn [andb fst]. rewrite andb_false_r, andb_true_r.
  destruct (Str.ends_with_op prev); reflexivity.
Qed.

(** [DEL] undoes a digit key, and an operator key pressed after a buffer
    that does not end with an operator, when no result was just shown and
    the buffer is not empty. (After ["0"], a digit replaces it and [DEL]
    brings ["0"] back.) *)
Theorem del_undoes_digit_or_operator :
  forall ev s t1 t2,
    justCalculated s = false -> expression s <> "" ->
    (forall d, In d digit_buttons ->
       option_map expression (run ev s [(t1, d); (t2, "DEL")]) = Some (expression s)) /\
    (forall o, In o operator_buttons -> Str.ends_with_op (expression s) = false ->
       option_map expression (run ev s [(t1, o); (t2, "DEL")]) = Some (expression s)).
Proof.
  intros ev s t1 t2 Hjc Hne. split.
  - intros d Hd. destruct (digit_cases d Hd) as (c & -> & Hdig & Hop & HC & HD & HE & Hdot).
    simpl run. rewrite press_input by assumption. cbn [run]. cbn [option_map expression].
    rewrite Hjc, iu_digit by assumption.
    destruct (String.eqb (expression s) "0") eqn:E0.
    + apply String.eqb_eq in E0. rewrite E0. reflexivity.
    + rewrite del_value by exact Hne. reflexivity.
  - intros o Ho Hend. destruct (operator_cases o Ho) as (c & -> & Hdig & Hop & HC & HD & HE & Hdot).
    simpl run. rewrite press_input by assumption. cbn [run]. cbn [option_map expression].
    rewrite Hjc, iu_op, Hend by assumption. rewrite del_value by exact Hne. reflexivity.
Qed.

Lemma in_operator_buttons o : existsb (String.eqb o) operator_buttons = true -> In o operator_buttons.
Proof.
  intro H. apply existsb_exists in H as (x & Hx & He). apply String.eqb_eq in He. subst. exact Hx.
Qed.

Lemma last_cons_default {A} (x : A) l d : last (x :: l) d = last l x.
Proof.
  revert x d. induction l as [|y l IH]; intros x d; [reflexivity|].
  change (last (y :: l) d = last (y :: l) x). rewrite !IH. reflexivity.
Qed.

Lemma ends_with_op_snoc base c : Str.ends_with_op (base ++ String c "") = Chars.is_op c.
Proof. rewrite ends_with_op_last, chars_app. simpl. rewrite last_last. reflexivity. Qed.

Lemma operator_run_aux ev ps : forall s base c t0,
  expression s = (base ++ String c "")%string -> Chars.is_op c = true -> justCalculated s = false ->
  forallb (fun p => existsb (String.eqb (snd p)) operator_buttons) ps = true ->
  option_map expression (run ev s ps) = Some (base ++ snd (last ps (t0, String c "")))%string.
Proof.
  induction ps as [|[t o] ps IH]; intros s base c t0 Hs Hc Hjc Hall.
  - simpl. rewrite Hs. reflexivity.
  - simpl in Hall. apply andb_true_iff in Hall as [Ho Hall].
    destruct (operator_cases o (in_operator_buttons o Ho))
      as (c' & -> & Hdig & Hop & HC & HD & HE & Hdot).
    simpl run. rewrite press_input by assumption. cbn [run].
    rewrite last_cons_default.
    apply IH; try assumption; [|reflexivity].
    cbn [expression]. rewrite Hjc, iu_op, Hs, ends_with_op_snoc, Hc, drop_last_snoc by assumption.
    reflexivity.
Qed.

(** A run of operator keys after a buffer that does not end with an operator
    (no result just shown) appends only the last operator pressed. *)
Theorem operator_presses_keep_last :
  forall ev s presses,
    justCalculated s = false -> Str.ends_with_op (expression s) = false -> presses <> [] ->
    forallb (fun p => existsb (String.eqb (snd p)) operator_buttons) presses = true ->
    option_map expression (run ev s presses) =
    Some (expression s ++ snd (last presses (Instants 0 0, "")))%string.
Proof.
  intros ev s [|[t o] ps] Hjc Hend Hne Hall; [congruence|].
  simpl in Hall. apply andb_true_iff in Hall as [Ho Hall].
  destruct (operator_cases o (in_operator_buttons o Ho))
    as (c & -> & Hdig & Hop & HC & HD & HE & Hdot).
  simpl run. rewrite press_input by assumption. cbn [run].
  rewrite last_cons_default.
  apply operator_run_aux; try assumption; [|reflexivity].
  cbn [expression]. rewrite Hjc, iu_op, Hend by assumption. reflexivity.
Qed.

Lemma press_cases ev s now v s' :
  handleButtonPress ev s now v = Some s' ->
  (history s' = [] /\ stored_history s' = []) \/
  (history s' = history s /\ stored_history s' = stored_history s) \/
  (exists r, checkSecretCode (expression s) = false /\ ev (expression s) = Some r /\
     String.eqb r "Error" = false /\
     history s' = firstn 10 (HistoryItem.mk (Z_to_string (id_read now)) (expression s) r (ts_read now) :: history s) /\
     stored_history s' = history s').
Proof.
  unfold handleButtonPress. intro H.
  destruct (String.eqb v "C"); [inversion H; subst; left; split; reflexivity|].
  destruct (String.eqb v "DEL"); [inversion H; subst; right; left; split; reflexivity|].
  destruct (String.eqb v "=").
  - destruct (checkSecretCode (expression s)) eqn:Hsec;
      [inversion H; subst; right; left; split; reflexivity|].
    unfold evaluate_and_record in H.
    destruct (ev (expression s)) as [r|] eqn:Hev; [|discriminate].
    destruct (String.eqb r "Error") eqn:Her; simpl in H; inversion H; subst.
    + right; left; split; reflexivity.
    + right; right. exists r. repeat split; assumption || reflexivity.
  - destruct (input_update (expression s) (result s) (justCalculated s) v).
    inversion H; subst. right; left; split; reflexivity.
Qed.

Lemma press_mirror ev s now v s' :
  stored_history s = history s -> handleButtonPress ev s now v = Some s' ->
  stored_history s' = history s'.
Proof.
  intros Hm Hp. destruct (press_cases ev s now v s' Hp)
    as [[H1 H2]|[[H1 H2]|(r & _ & _ & _ & _ & H2)]]; congruence.
Qed.

Lemma run_mirror ev ps : forall s s',
  stored_history s = history s -> run ev s ps = Some s' -> stored_history s' = history s'.
Proof.
  induction ps as [|[now v] ps IH]; intros s s' Hm Hr; simpl in Hr.
  - congruence.
  - destruct (handleButtonPress ev s now v) as [s1|] eqn:Hp; [|discriminate].
    exact (IH s1 s' (press_mirror ev s now v s1 Hm Hp) Hr).
Qed.

(** The history last written by [saveHistory] is always the history shown:
    every press that changes the ledger also saves it. *)
Theorem persisted_history_mirrors_ledger :
  forall ev saved presses s,
    run ev (mount saved) presses = Some s -> stored_history s = history s.
Proof. intros ev saved presses s. apply run_mirror. reflexivity. Qed.

Lemma forallb_firstn {A} (f : A -> bool) k l : forallb f l = true -> forallb f (firstn k l) = true.
Proof.
  revert l. induction k as [|k IH]; intros [|x l] H; try reflexivity.
  simpl in *. apply andb_true_iff in H as [H1 H2]. rewrite H1. exact (IH l H2).
Qed.

Lemma run_entries ev ps : forall s s',
  forallb (history_entry_ok ev) (history s) = true -> run ev s ps = Some s' ->
  forallb (history_entry_ok ev) (history s') = true.
Proof.
  induction ps as [|[now v] ps IH]; intros s s' Hok Hr; simpl in Hr.
  - congruence.
  - destruct (handleButtonPress ev s now v) as [s1|] eqn:Hp; [|discriminate].
    apply (IH s1 s'); [|exact Hr].
    destruct (press_cases ev s now v s1 Hp)
      as [[H1 _]|[[H1 _]|(r & Hsec & Hev & Her & H1 & _)]]; rewrite H1.
    + reflexivity.
    + exact Hok.
    + apply forallb_firstn. cbn [forallb]. rewrite Hok, andb_true_r.
      unfold history_entry_ok. cbn [HistoryItem.expression HistoryItem.result].
      rewrite Hev, String.eqb_refl, Her, Hsec. reflexivity.
Qed.

(** Every ledger entry, when the saved ones were, records an expression, the
    non-["Error"] result the evaluator gives for it, an expression other than
    the secret code. *)
Theorem history_entries_are_evaluations :
  forall ev saved presses s,
    forallb (history_entry_ok ev) saved = true ->
    run ev (mount saved) presses = Some s ->
    forallb (history_entry_ok ev) (history s) = true.
Proof. intros ev saved presses s H. exact (run_entries ev presses (mount saved) s H). Qed.

Lemma sorted_cons a l : sorted_desc (a :: l) = true <-> hd_le a l /\ sorted_desc l = true.
Proof.
  destruct l as [|b l]; simpl; [tauto|].
  rewrite andb_true_iff, Z.leb_le. tauto.
Qed.

Lemma sorted_firstn k l : sorted_desc l = true -> sorted_desc (firstn k l) = true.
Proof.
  revert k. induction l as [|a l IH]; intros k H; [destruct k; reflexivity|].
  destruct k as [|k]; [reflexivity|]. cbn [firstn].
  apply sorted_cons in H as [Hh Hs]. apply sorted_cons. split; [|exact (IH k Hs)].
  destruct l as [|b l]; destruct k; simpl; auto.
Qed.

Lemma sorted_app_firstn A B k :
  sorted_desc (A ++ B) = true -> sorted_desc (A ++ firstn k B) = true.
Proof.
  intro H. replace (A ++ firstn k B) with (firstn (List.length A + k) (A ++ B)).
  - apply sorted_firstn, H.
  - rewrite firstn_app, firstn_all2 by lia. f_equal. f_equal. lia.
Qed.

Lemma sorted_drop_mid A x B :
  sorted_desc (A ++ x :: B) = true -> sorted_desc (A ++ B) = true.
Proof.
  induction A as [|a A IH]; simpl app; intro H.
  - apply sorted_cons in H. tauto.
  - apply sorted_cons in H as [Hh Hs]. apply sorted_cons. split; [|exact (IH Hs)].
    destruct A as [|a' A]; simpl in *; [|exact Hh].
    apply sorted_cons in Hs as [Hx _]. destruct B; simpl in *; [exact I|lia].
Qed.

Lemma run_sorted ev ps : forall s s',
  sorted_desc (rev (map (fun p => ts_read (fst p)) ps) ++ map HistoryItem.timestamp (history s)) = true ->
  run ev s ps = Some s' ->
  sorted_desc (map HistoryItem.timestamp (history s')) = true.
Proof.
  induction ps as [|[now v] ps IH]; intros s s' Hs Hr; simpl in Hr.
  - inversion Hr; subst. exact Hs.
  - destruct (handleButtonPress ev s now v) as [s1|] eqn:Hp; [|discriminate].
    apply (IH s1 s'); [|exact Hr].
    cbn [map fst rev] in Hs. rewrite <- app_assoc in Hs. cbn [app] in Hs.
    destruct (press_cases ev s now v s1 Hp)
      as [[H1 _]|[[H1 _]|(r & _ & _ & _ & H1 & _)]]; rewrite H1.
    + apply (sorted_app_firstn _ _ 0) in Hs. exact Hs.
    + exact (sorted_drop_mid _ _ _ Hs).
    + rewrite <- firstn_map. exact (sorted_app_firstn _ _ 10 Hs).
Qed.

(** When the timestamp reads of the presses are non-decreasing, none earlier
    than the saved entries, and the saved entries are newest first, the ledger's
    timestamps stay in non-increasing order. *)
Theorem history_newest_first_in_time :
  forall ev saved presses s,
    sorted_desc (rev (map (fun p => ts_read (fst p)) presses) ++ map HistoryItem.timestamp saved) = true ->
    run ev (mount saved) presses = Some s ->
    sorted_desc (map HistoryItem.timestamp (history s)) = true.
Proof. intros ev saved presses s H. exact (run_sorted ev presses (mount saved) s H). Qed.

(** *** Evaluator edge cases *)

Lemma lex_blank l : forall fuel dv nl,
  blank l = true -> (List.length l < fuel)%nat -> JsEval.lex_aux fuel dv nl l = JsEval.LexOk [].
Proof.
  induction l as [|c l IH]; intros fuel dv nl Hb Hf; (destruct fuel as [|f]; [simpl in Hf; lia|]).
  - reflexivity.
  - simpl in Hb. apply andb_true_iff in Hb as [Hc Hb]. simpl in Hf.
    cbn [JsEval.lex_aux].
    destruct (JsEval.is_line_terminator c) eqn:Hlt; [apply IH; [exact Hb|lia]|].
    rewrite orb_false_r in Hc. rewrite Hc. apply IH; [exact Hb|lia].
Qed.

Lemma blank_char_norm c :
  (JsEval.is_white_space c || JsEval.is_line_terminator c) = true ->
  (c =? 215) = false /\ (c =? 247) = false /\ JsEval.allowed c = true.
Proof.
  intro H. split; [|split].
  - destruct (c =? 215) eqn:E; [|reflexivity]. apply Z.eqb_eq in E. subst. discriminate.
  - destruct (c =? 247) eqn:E; [|reflexivity]. apply Z.eqb_eq in E. subst. discriminate.
  - unfold JsEval.allowed. apply orb_true_iff in H as [H|H]; rewrite H;
      rewrite ?orb_true_r, ?orb_true_l; reflexivity.
Qed.

Lemma normalize_blank l : blank l = true -> JsEval.normalize l = l /\ forallb JsEval.allowed l = true.
Proof.
  unfold JsEval.normalize.
  induction l as [|c l IH]; [split; reflexivity|]. intro H. unfold blank in H.
  cbn [forallb] in H. apply andb_true_iff in H as [Hc Hl].
  destruct (blank_char_norm c Hc) as (H1 & H2 & H3).
  destruct (IH Hl) as [IH1 IH2]. cbn [map forallb].
  rewrite H1, H2, H3, IH1, IH2. split; reflexivity.
Qed.

(** An expression of white space and line terminators only, or the empty
    string, evaluates to ["Error"]: the empty string fails the whitelist,
    and [return] with nothing after it gives [undefined]. *)
Theorem blank_input_is_error :
  forall s, blank (JsEval.code_points s) = true -> JsEval.evaluateExpression s = Some "Error".
Proof.
  intros s H. unfold JsEval.evaluateExpression. cbv zeta.
  destruct (normalize_blank _ H) as [Hn Ha]. rewrite Hn.
  destruct (JsEval.code_points s) as [|c l] eqn:Hcs; [reflexivity|].
  unfold JsEval.whitelisted. rewrite Ha. cbn [negb].
  unfold JsEval.js_call, JsEval.lex. rewrite lex_blank by (exact H || lia). reflexivity.
Qed.

Lemma utf8_ascii_app l m :
  forallb (fun c => (nat_of_ascii c <? 128)%nat) l = true ->
  JsEval.utf8_decode (l ++ m) = map (fun c => Z.of_nat (nat_of_ascii c)) l ++ JsEval.utf8_decode m.
Proof.
  induction l as [|b l IH]; intro H; [reflexivity|].
  simpl in H. apply andb_true_iff in H as [Hb H].
  cbn [app map]. cbn [JsEval.utf8_decode].
  replace (Z.of_nat (nat_of_ascii b) <? 128) with true.
  - rewrite IH by exact H. reflexivity.
  - symmetry. apply Z.ltb_lt. apply Nat.ltb_lt in Hb. lia.
Qed.

Lemma glyph_code_points a b :
  ascii_only a = true ->
  JsEval.normalize (JsEval.code_points (a ++ times_glyph ++ b)) =
  JsEval.normalize (JsEval.code_points (a ++ "*" ++ b)) /\
  JsEval.normalize (JsEval.code_points (a ++ divide_glyph ++ b)) =
  JsEval.normalize (JsEval.code_points (a ++ "/" ++ b)).
Proof.
  intro Ha. unfold JsEval.code_points. fold (Str.chars (a ++ times_glyph ++ b)).
  fold (Str.chars (a ++ "*" ++ b)). fold (Str.chars (a ++ divide_glyph ++ b)).
  fold (Str.chars (a ++ "/" ++ b)). rewrite !chars_app.
  rewrite (utf8_ascii_app _ (Str.chars times_glyph ++ Str.chars b) Ha),
    (utf8_ascii_app _ (Str.chars "*" ++ Str.chars b) Ha),
    (utf8_ascii_app _ (Str.chars divide_glyph ++ Str.chars b) Ha),
    (utf8_ascii_app _ (Str.chars "/" ++ Str.chars b) Ha).
  unfold JsEval.normalize. rewrite !map_app. split; reflexivity.
Qed.

(** After an ASCII prefix, the multiplication sign U+00D7 and the division
    sign U+00F7 evaluate exactly as [*] and [/]. *)
Theorem glyph_operators_evaluate_alike :
  forall a b, ascii_only a = true ->
    JsEval.evaluateExpression (a ++ times_glyph ++ b) = JsEval.evaluateExpression (a ++ "*" ++ b) /\
    JsEval.evaluateExpression (a ++ divide_glyph ++ b) = JsEval.evaluateExpression (a ++ "/" ++ b).
Proof.
  intros a b Ha. destruct (glyph_code_points a b Ha) as [H1 H2].
  unfold JsEval.evaluateExpression. cbv zeta. rewrite H1, H2. split; reflexivity.
Qed.

(** *** Persistent storage and the notes list *)

Lemma filter_length_eq {A} (f : A -> bool) (l : list A) :
  Nat.eqb (List.length (filter f l)) (List.length l) = forallb f l.
Proof.
  induction l as [|x l IH]; [reflexivity|]. simpl.
  destruct (f x); simpl; [exact IH|].
  apply Nat.eqb_neq. pose proof (filter_length_le f l) as H. simpl in H. lia.
Qed.

Lemma filter_all {A} (f : A -> bool) (l : list A) : forallb f l = true -> filter f l = l.
Proof.
  induction l as [|x l IH]; [reflexivity|]. simpl. intro H.
  apply andb_true_iff in H as [H1 H2]. rewrite H1, IH by exact H2. reflexivity.
Qed.

Lemma existsb_negb_forallb {A} (f : A -> bool) (l : list A) :
  existsb f l = negb (forallb (fun x => negb (f x)) l).
Proof.
  induction l as [|x l IH]; [reflexivity|]. simpl. rewrite IH.
  destruct (f x); reflexivity.
Qed.

(** [deleteNote] removes every note with the id (not only the first) and keeps
    the order of the others; it reports whether one was there, and writes
    nothing when none was. When the read fails it reports [false] and writes
    nothing. *)
Theorem deleteNote_removes_every_match :
  (forall id st,
     let r := Storage.deleteNote true true id st in
     fst r = existsb (fun n => String.eqb (Note.id n) id) (Storage.loadNotes true st) /\
     Storage.loadNotes true (snd r) =
       filter (fun n => negb (String.eqb (Note.id n) id)) (Storage.loadNotes true st) /\
     Storage.loadHistory true (snd r) = Storage.loadHistory true st /\
     (fst r = false -> snd r = st)) /\
  (forall set_ok id st, Storage.deleteNote false set_ok id st = (false, st)).
Proof.
  split; [|reflexivity].
  intros id st r. subst r. unfold Storage.deleteNote.
  rewrite filter_length_eq, existsb_negb_forallb.
  destruct (forallb _ (Storage.loadNotes true st)) eqn:F; simpl.
  - rewrite filter_all by exact F. repeat split; reflexivity.
  - repeat split; try reflexivity. discriminate.
Qed.

Lemma forallb_filter {A} (f : A -> bool) (l : list A) : forallb f (filter f l) = true.
Proof.
  induction l as [|x l IH]; [reflexivity|]. simpl.
  destruct (f x) eqn:Hx; simpl; [rewrite Hx; exact IH|exact IH].
Qed.

Lemma load_save_notes l st : Storage.loadNotes true (Storage.saveNotes true l st) = l.
Proof. reflexivity. Qed.

Lemma history_save_notes ok l st :
  Storage.loadHistory ok (Storage.saveNotes true l st) = Storage.loadHistory ok st.
Proof. reflexivity. Qed.

(** [addNote], then [deleteNote] of the new note's id, with every storage
    call succeeding: the delete reports [true], and the stored notes are the
    earlier ones without any note of that id (the new one, and any older one
    that happened to share its id); when no earlier note has the id, they are
    exactly the earlier notes. The history is untouched. *)
Theorem addNote_then_deleteNote :
  forall content now_id rnd now_ts st,
    let n := fst (Storage.addNote true true content now_id rnd now_ts st) in
    let r := Storage.deleteNote true true (Note.id n)
               (snd (Storage.addNote true true content now_id rnd now_ts st)) in
    fst r = true /\
    Storage.loadNotes true (snd r) =
      filter (fun m => negb (String.eqb (Note.id m) (Note.id n))) (Storage.loadNotes true st) /\
    Storage.loadHistory true (snd r) = Storage.loadHistory true st /\
    (forallb (fun m => negb (String.eqb (Note.id m) (Note.id n))) (Storage.loadNotes true st) = true ->
     Storage.loadNotes true (snd r) = Storage.loadNotes true st).
Proof.
  intros content now_id rnd now_ts st n r. subst n r.
  unfold Storage.addNote. cbn [fst snd].
  set (L := Storage.loadNotes true st).
  set (n := Note.mk (Z_to_string now_id ++ rnd) content now_ts).
  unfold Storage.deleteNote. rewrite load_save_notes.
  cbn [filter Note.id n]. rewrite String.eqb_refl. cbn [negb]. fold n.
  set (p := fun note : Note.t => negb (String.eqb (Note.id note) (Z_to_string now_id ++ rnd))).
  assert (Hlen : Nat.eqb (List.length (filter p L)) (List.length (n :: L)) = false).
  { apply Nat.eqb_neq. pose proof (filter_length_le p L). simpl. lia. }
  rewrite Hlen. cbn [fst snd]. rewrite load_save_notes, !history_save_notes.
  repeat split. intro F. apply filter_all. exact F.
Qed.

(** After a [deleteNote] whose read and write succeed, a second [deleteNote]
    of the same id reports [false] and writes nothing. *)
Theorem deleteNote_twice :
  forall id st,
    let st1 := snd (Storage.deleteNote true true id st) in
    Storage.deleteNote true true id st1 = (false, st1).
Proof.
  intros id st st1. subst st1.
  set (p := fun n : Note.t => negb (String.eqb (Note.id n) id)).
  destruct (forallb p (Storage.loadNotes true st)) eqn:F.
  - assert (E : Storage.deleteNote true true id st = (false, st)).
    { unfold Storage.deleteNote. fold p. rewrite filter_length_eq, F. reflexivity. }
    rewrite E. exact E.
  - assert (E : snd (Storage.deleteNote true true id st) =
                Storage.saveNotes true (filter p (Storage.loadNotes true st)) st).
    { unfold Storage.deleteNote. fold p. rewrite filter_length_eq, F. reflexivity. }
    rewrite E. unfold Storage.deleteNote at 1. fold p.
    rewrite load_save_notes, filter_length_eq, forallb_filter. reflexivity.
Qed.

Lemma findIndex_app {A} (p : A -> bool) pre x post :
  forallb (fun y => negb (p y)) pre = true -> p x = true ->
  Storage.findIndex p (pre ++ x :: post) = Some (List.length pre).
Proof.
  intros Hpre Hx. induction pre as [|y pre IH]; simpl; [rewrite Hx; reflexivity|].
  simpl in Hpre. apply andb_true_iff in Hpre as [Hy Hpre].
  destruct (p y); [discriminate|]. rewrite IH by exact Hpre. reflexivity.
Qed.

Lemma findIndex_none {A} (p : A -> bool) l :
  forallb (fun y => negb (p y)) l = true -> Storage.findIndex p l = None.
Proof.
  induction l as [|y l IH]; simpl; [reflexivity|]. intro H.
  apply andb_true_iff in H as [Hy H]. destruct (p y); [discriminate|].
  rewrite IH by exact H. reflexivity.
Qed.

Lemma nth_app_len {A} (pre post : list A) x d : nth (List.length pre) (pre ++ x :: post) d = x.
Proof. induction pre; simpl; auto. Qed.

Lemma set_nth_app_len {A} (pre post : list A) x y :
  Storage.set_nth (List.length pre) y (pre ++ x :: post) = pre ++ y :: post.
Proof. induction pre; simpl; [reflexivity|]. rewrite IHpre. reflexivity. Qed.

Lemma find_app_first {A} (p : A -> bool) pre x post :
  forallb (fun y => negb (p y)) pre = true -> p x = true ->
  find p (pre ++ x :: post) = Some x.
Proof.
  intros Hpre Hx. induction pre as [|y pre IH]; simpl; [rewrite Hx; reflexivity|].
  simpl in Hpre. apply andb_true_iff in Hpre as [Hy Hpre].
  destruct (p y); [discriminate|]. exact (IH Hpre).
Qed.

(** [updateNote] replaces the content and timestamp of the first note with
    the id, keeping its id, position and the other notes, and returns the
    updated note, which [getNoteById] then finds. *)
Theorem updateNote_first_match :
  forall id content now st pre n post,
    Storage.loadNotes true st = pre ++ n :: post ->
    forallb (fun m => negb (String.eqb (Note.id m) id)) pre = true ->
    Note.id n = id ->
    let r := Storage.updateNote true true id content now st in
    fst r = Some (Note.mk id content now) /\
    Storage.loadNotes true (snd r) = pre ++ Note.mk id content now :: post /\
    Storage.getNoteById true id (snd r) = Some (Note.mk id content now) /\
    Storage.loadHistory true (snd r) = Storage.loadHistory true st.
Proof.
  intros id content now st pre n post Hst Hpre Hn r. subst r.
  assert (Hx : String.eqb (Note.id n) id = true) by (apply String.eqb_eq; exact Hn).
  unfold Storage.updateNote. rewrite Hst.
  rewrite (findIndex_app (fun note => String.eqb (Note.id note) id) pre n post Hpre Hx).
  rewrite nth_app_len, Hn, set_nth_app_len, nth_app_len. simpl.
  repeat split; try reflexivity.
  unfold Storage.getNoteById. simpl.
  apply find_app_first; [exact Hpre|]. apply String.eqb_refl.
Qed.

(** [updateNote] of an id no loaded note has returns [null] and writes
    nothing. *)
Theorem updateNote_missing_id :
  forall get_ok set_ok id content now st,
    forallb (fun m => negb (String.eqb (Note.id m) id)) (Storage.loadNotes get_ok st) = true ->
    Storage.updateNote get_ok set_ok id content now st = (None, st).
Proof.
  intros get_ok set_ok id content now st H. unfold Storage.updateNote.
  rewrite findIndex_none by exact H. reflexivity.
Qed.

(** On the notes list, a confirmed delete leaves the list showing exactly the
    stored notes, which are the previous ones without that id, and no longer
    loading; a cancelled delete changes nothing. *)
Theorem handleDeleteNote_list_matches_storage :
  (forall id st s,
     let r := NotesList.handleDeleteNote true true true true id st s in
     NotesList.notes (snd r) = Storage.loadNotes true (fst r) /\
     NotesList.notes (snd r) =
       filter (fun n => negb (String.eqb (Note.id n) id)) (Storage.loadNotes true st) /\
     NotesList.isLoading (snd r) = false) /\
  (forall get_ok set_ok reload_ok id st s,
     NotesList.handleDeleteNote false get_ok set_ok reload_ok id st s = (st, s)).
Proof.
  split; [|reflexivity].
  intros id st s r. subst r. unfold NotesList.handleDeleteNote, Storage.deleteNote.
  rewrite filter_length_eq.
  destruct (forallb _ (Storage.loadNotes true st)) eqn:F; simpl.
  - rewrite filter_all by exact F. repeat split; reflexivity.
  - repeat split; reflexivity.
Qed.

(** *** Witnesses *)

Local Close Scope Z_scope.

(** The hypotheses of C5 hold for the buffer ["5/0"]. *)
Lemma error_press_keeps_buffer_and_history_witness :
  checkSecretCode "5/0" = false /\
  JsEval.evaluateExpression "5/0" = Some "Error" /\
  exists s', handleButtonPress JsEval.evaluateExpression (mkState "5/0" "" [] false [] []) (Instants 0 0) "="
             = Some s' /\
    expression s' = "5/0" /\ history s' = [] /\ stored_history s' = [].
Proof.
  split; [reflexivity|]. split; [vm_compute; reflexivity|].
  exact (error_press_keeps_buffer_and_history JsEval.evaluateExpression
           (mkState "5/0" "" [] false [] []) (Instants 0 0) (ltac:(reflexivity))
           (ltac:(vm_compute; reflexivity))).
Defined.

(** The hypotheses of C10 hold for the buffer ["5/0"], whose evaluation
    gives ["Error"]. *)
Lemma equals_sets_justCalculated_witness :
  exists s', handleButtonPress JsEval.evaluateExpression (mkState "5/0" "" [] false [] []) (Instants 0 0) "="
             = Some s' /\
    justCalculated s' = true /\ result s' = "Error" /\
    (forall d now', In d digit_buttons ->
       option_map expression (handleButtonPress JsEval.evaluateExpression s' now' d) = Some d) /\
    (forall o now', In o operator_buttons ->
       option_map expression (handleButtonPress JsEval.evaluateExpression s' now' o)
       = Some ("Error" ++ o)%string).
Proof.
  exact (equals_sets_justCalculated JsEval.evaluateExpression
           (mkState "5/0" "" [] false [] []) (Instants 0 0) "Error" (ltac:(reflexivity))
           (ltac:(vm_compute; reflexivity))).
Defined.

(** Eleven successful evaluations from an empty history: C6 applies, and ten
    entries remain. *)
Lemma history_ledger_capped_newest_first_witness :
  exists s,
    run JsEval.evaluateExpression (mount [])
      [(Instants 0 0, "1"); (Instants 1 1, "="); (Instants 2 2, "="); (Instants 3 3, "="); (Instants 4 4, "="); (Instants 5 5, "="); (Instants 6 6, "=");
       (Instants 7 7, "="); (Instants 8 8, "="); (Instants 9 9, "="); (Instants 10 10, "="); (Instants 11 11, "=")] = Some s /\
    List.length (history s) = 10 /\
    ((List.length (history s) <= 10) /\
     (Spec.no_clear
        [(Instants 0 0, "1"); (Instants 1 1, "="); (Instants 2 2, "="); (Instants 3 3, "="); (Instants 4 4, "="); (Instants 5 5, "="); (Instants 6 6, "=");
         (Instants 7 7, "="); (Instants 8 8, "="); (Instants 9 9, "="); (Instants 10 10, "="); (Instants 11 11, "=")] = true ->
      history s =
      firstn 10 (rev (Spec.recorded JsEval.evaluateExpression (mount [])
        [(Instants 0 0, "1"); (Instants 1 1, "="); (Instants 2 2, "="); (Instants 3 3, "="); (Instants 4 4, "="); (Instants 5 5, "="); (Instants 6 6, "=");
         (Instants 7 7, "="); (Instants 8 8, "="); (Instants 9 9, "="); (Instants 10 10, "="); (Instants 11 11, "=")]) ++ []))).
Proof.
  destruct (run JsEval.evaluateExpression (mount [])
      [(Instants 0 0, "1"); (Instants 1 1, "="); (Instants 2 2, "="); (Instants 3 3, "="); (Instants 4 4, "="); (Instants 5 5, "="); (Instants 6 6, "=");
       (Instants 7 7, "="); (Instants 8 8, "="); (Instants 9 9, "="); (Instants 10 10, "="); (Instants 11 11, "=")]) as [s|] eqn:E;
    [|vm_compute in E; discriminate].
  exists s. split; [reflexivity|]. split.
  - vm_compute in E. injection E as <-. reflexivity.
  - exact (history_ledger_capped_newest_first JsEval.evaluateExpression [] _ s
             (ltac:(simpl; lia)) E).
Defined.

(** [5], [=] from the start shows ["5"] with [justCalculated] set; [*] then
    chains on that result, a valid buffer, and [3] gives ["5*3"], which keeps
    the invariant. *)
Lemma buffer_invariant_chaining_valid_results_witness :
  (exists s, run JsEval.evaluateExpression (mount []) [(Instants 1 1, "5"); (Instants 2 2, "=")] = Some s /\
     option_map expression (handleButtonPress JsEval.evaluateExpression s (Instants 3 3) "*")
       = Some "5*" /\ Spec.buffer_ok "5*" = true) /\
  (exists s, run JsEval.evaluateExpression (mount []) [(Instants 1 1, "5"); (Instants 2 2, "="); (Instants 3 3, "*"); (Instants 4 4, "3")] = Some s /\ expression s = "5*3" /\
     Spec.chains_on_valid_results JsEval.evaluateExpression (mount []) [(Instants 1 1, "5"); (Instants 2 2, "="); (Instants 3 3, "*"); (Instants 4 4, "3")] = true /\
     Spec.buffer_ok (expression s) = true).
Proof.
  split.
  - destruct (run JsEval.evaluateExpression (mount []) [(Instants 1 1, "5"); (Instants 2 2, "=")]) as [s|] eqn:E;
      [|vm_compute in E; discriminate].
    assert (Hs : result s = "5" /\ justCalculated s = true)
      by (vm_compute in E; injection E as <-; split; reflexivity).
    destruct Hs as [Hr Hj].
    destruct (buffer_invariant_chaining_valid_results JsEval.evaluateExpression [] [(Instants 1 1, "5"); (Instants 2 2, "=")] s
                (eq_refl) E) as (_ & _ & Hc).
    destruct (Hc (Instants 3 3) "*" Hj (ltac:(simpl; tauto))) as [He Hiff].
    rewrite Hr in He, Hiff.
    exists s. split; [reflexivity|]. split; [exact He|].
    apply Hiff. split; vm_compute; reflexivity.
  - destruct (run JsEval.evaluateExpression (mount []) [(Instants 1 1, "5"); (Instants 2 2, "="); (Instants 3 3, "*"); (Instants 4 4, "3")]) as [s|] eqn:E;
      [|vm_compute in E; discriminate].
    destruct (buffer_invariant_chaining_valid_results JsEval.evaluateExpression [] [(Instants 1 1, "5"); (Instants 2 2, "="); (Instants 3 3, "*"); (Instants 4 4, "3")] s
                (eq_refl) E) as (_ & Hok & _).
    assert (Hc : Spec.chains_on_valid_results JsEval.evaluateExpression (mount []) [(Instants 1 1, "5"); (Instants 2 2, "="); (Instants 3 3, "*"); (Instants 4 4, "3")] = true)
      by (vm_compute; reflexivity).
    exists s. split; [reflexivity|].
    split; [vm_compute in E; injection E as <-; reflexivity|].
    split; [exact Hc|exact (Hok Hc)].
Defined.

(** ["2+3*4"] as a well-formed expression: C3 applies, and the value it
    gives is ["14"]. *)
Lemma precedence_left_to_right_witness :
  Spec.render (Spec.Numeral ["2"%char] None)
    [(Spec.Add, Spec.Numeral ["3"%char] None); (Spec.Mul, Spec.Numeral ["4"%char] None)]
    = "2+3*4" /\
  Spec.expected_result (Spec.Numeral ["2"%char] None)
    [(Spec.Add, Spec.Numeral ["3"%char] None); (Spec.Mul, Spec.Numeral ["4"%char] None)]
    = "14" /\
  JsEval.evaluateExpression
    (Spec.render (Spec.Numeral ["2"%char] None)
       [(Spec.Add, Spec.Numeral ["3"%char] None); (Spec.Mul, Spec.Numeral ["4"%char] None)]) =
  Some (Spec.expected_result (Spec.Numeral ["2"%char] None)
          [(Spec.Add, Spec.Numeral ["3"%char] None); (Spec.Mul, Spec.Numeral ["4"%char] None)]).
Proof.
  split; [reflexivity|]. split; [vm_compute; reflexivity|].
  apply (proj1 precedence_left_to_right); reflexivity.
Defined.

(** ["2+3*4"]: the call returns 14, and [=] on that buffer records it. *)
Lemma finite_results_never_Error_witness :
  JsEval.evaluateExpression "2+3*4" = Some (JsEval.format_result 14%float) /\
  option_map history
    (handleButtonPress JsEval.evaluateExpression (mkState "2+3*4" "" [] false [] []) (Instants 7 9) "=")
    = Some [HistoryItem.mk "7" "2+3*4" (JsEval.format_result 14%float) 9].
Proof.
  destruct (finite_results_never_Error "2+3*4" 14%float) as (Hev & _ & Hh);
    [vm_compute; reflexivity..|].
  split; [exact Hev|].
  exact (Hh (mkState "2+3*4" "" [] false [] []) (Instants 7 9) eq_refl eq_refl).
Defined.

(** [7] then [DEL], and [+] then [DEL], from the buffer ["12"]. *)
Lemma del_undoes_digit_or_operator_witness :
  option_map expression
    (run JsEval.evaluateExpression (mkState "12" "" [] false [] []) [(Instants 1 1, "7"); (Instants 2 2, "DEL")])
    = Some "12" /\
  option_map expression
    (run JsEval.evaluateExpression (mkState "12" "" [] false [] []) [(Instants 1 1, "+"); (Instants 2 2, "DEL")])
    = Some "12".
Proof.
  destruct (del_undoes_digit_or_operator JsEval.evaluateExpression (mkState "12" "" [] false [] [])
              (Instants 1 1) (Instants 2 2) (ltac:(reflexivity)) (ltac:(discriminate))) as [Hd Ho].
  split; [apply Hd; simpl; tauto | apply Ho; [simpl; tauto | reflexivity]].
Defined.

(** [+], [*], [-] after the buffer ["12"] leave ["12-"]. *)
Lemma operator_presses_keep_last_witness :
  option_map expression
    (run JsEval.evaluateExpression (mkState "12" "" [] false [] [])
       [(Instants 1 1, "+"); (Instants 2 2, "*"); (Instants 3 3, "-")]) = Some "12-".
Proof.
  exact (operator_presses_keep_last JsEval.evaluateExpression (mkState "12" "" [] false [] [])
           [(Instants 1 1, "+"); (Instants 2 2, "*"); (Instants 3 3, "-")] (ltac:(reflexivity)) (ltac:(reflexivity))
           (ltac:(discriminate)) (ltac:(reflexivity))).
Defined.

(** A run with an evaluation and a clear. *)
Lemma persisted_history_mirrors_ledger_witness :
  exists s,
    run JsEval.evaluateExpression (mount [])
      [(Instants 1 1, "4"); (Instants 2 2, "*"); (Instants 3 3, "2"); (Instants 4 4, "="); (Instants 5 5, "C"); (Instants 6 6, "1"); (Instants 7 7, "=")]
    = Some s /\ stored_history s = history s.
Proof.
  destruct (run JsEval.evaluateExpression (mount [])
      [(Instants 1 1, "4"); (Instants 2 2, "*"); (Instants 3 3, "2"); (Instants 4 4, "="); (Instants 5 5, "C"); (Instants 6 6, "1"); (Instants 7 7, "=")])
    as [s|] eqn:E; [|vm_compute in E; discriminate].
  exists s. split; [reflexivity|].
  exact (persisted_history_mirrors_ledger JsEval.evaluateExpression [] _ s E).
Defined.

(** Two evaluations and a division by zero from an empty ledger. *)
Lemma history_entries_are_evaluations_witness :
  exists s,
    run JsEval.evaluateExpression (mount [])
      [(Instants 1 1, "4"); (Instants 2 2, "*"); (Instants 3 3, "2"); (Instants 4 4, "="); (Instants 5 5, "/"); (Instants 6 6, "0"); (Instants 7 7, "=");
       (Instants 8 8, "C"); (Instants 9 9, "7"); (Instants 10 10, "=")] = Some s /\
    forallb (history_entry_ok JsEval.evaluateExpression) (history s) = true.
Proof.
  destruct (run JsEval.evaluateExpression (mount [])
      [(Instants 1 1, "4"); (Instants 2 2, "*"); (Instants 3 3, "2"); (Instants 4 4, "="); (Instants 5 5, "/"); (Instants 6 6, "0"); (Instants 7 7, "=");
       (Instants 8 8, "C"); (Instants 9 9, "7"); (Instants 10 10, "=")]) as [s|] eqn:E; [|vm_compute in E; discriminate].
  exists s. split; [reflexivity|].
  refine (history_entries_are_evaluations JsEval.evaluateExpression [] _ s _ E).
  reflexivity.
Defined.

(** Presses whose timestamp reads increase, after a saved entry with timestamp 5. *)
Lemma history_newest_first_in_time_witness :
  exists s,
    run JsEval.evaluateExpression (mount [HistoryItem.mk "5" "1+1" "2" 5])
      [(Instants 10 10, "3"); (Instants 11 11, "="); (Instants 12 12, "+"); (Instants 13 13, "4"); (Instants 14 14, "=")] = Some s /\
    sorted_desc (map HistoryItem.timestamp (history s)) = true.
Proof.
  destruct (run JsEval.evaluateExpression (mount [HistoryItem.mk "5" "1+1" "2" 5])
      [(Instants 10 10, "3"); (Instants 11 11, "="); (Instants 12 12, "+"); (Instants 13 13, "4"); (Instants 14 14, "=")]) as [s|] eqn:E;
    [|vm_compute in E; discriminate].
  exists s. split; [reflexivity|].
  refine (history_newest_first_in_time JsEval.evaluateExpression _ _ s _ E).
  vm_compute. reflexivity.
Defined.

(** A space, a tab and a line feed. *)
Lemma blank_input_is_error_witness :
  JsEval.evaluateExpression (String " " (String (ascii_of_nat 9) (String (ascii_of_nat 10) EmptyString)))
  = Some "Error".
Proof.
  apply blank_input_is_error. vm_compute. reflexivity.
Defined.

(** ["6" ++ U+00D7 ++ "7"] and ["6*7"]. *)
Lemma glyph_operators_evaluate_alike_witness :
  JsEval.evaluateExpression ("6" ++ times_glyph ++ "7") = JsEval.evaluateExpression ("6" ++ "*" ++ "7") /\
  JsEval.evaluateExpression ("6" ++ divide_glyph ++ "7") = JsEval.evaluateExpression ("6" ++ "/" ++ "7").
Proof.
  exact (glyph_operators_evaluate_alike "6" "7" (ltac:(reflexivity))).
Defined.

(** Three stored notes, the second with id ["b"]. *)
Lemma updateNote_first_match_witness :
  fst (Storage.updateNote true true "b" "new" 9%Z
         (Storage.mkStore (Some [Note.mk "a" "x" 1; Note.mk "b" "y" 2; Note.mk "c" "z" 3]) None))
  = Some (Note.mk "b" "new" 9) /\
  Storage.loadNotes true (snd (Storage.updateNote true true "b" "new" 9%Z
         (Storage.mkStore (Some [Note.mk "a" "x" 1; Note.mk "b" "y" 2; Note.mk "c" "z" 3]) None)))
  = [Note.mk "a" "x" 1; Note.mk "b" "new" 9; Note.mk "c" "z" 3] /\
  Storage.getNoteById true "b" (snd (Storage.updateNote true true "b" "new" 9%Z
         (Storage.mkStore (Some [Note.mk "a" "x" 1; Note.mk "b" "y" 2; Note.mk "c" "z" 3]) None)))
  = Some (Note.mk "b" "new" 9) /\
  Storage.loadHistory true (snd (Storage.updateNote true true "b" "new" 9%Z
         (Storage.mkStore (Some [Note.mk "a" "x" 1; Note.mk "b" "y" 2; Note.mk "c" "z" 3]) None)))
  = Storage.loadHistory true
      (Storage.mkStore (Some [Note.mk "a" "x" 1; Note.mk "b" "y" 2; Note.mk "c" "z" 3]) None).
Proof.
  exact (updateNote_first_match "b" "new" 9%Z
           (Storage.mkStore (Some [Note.mk "a" "x" 1; Note.mk "b" "y" 2; Note.mk "c" "z" 3]) None)
           [Note.mk "a" "x" 1] (Note.mk "b" "y" 2) [Note.mk "c" "z" 3]
           (ltac:(reflexivity)) (ltac:(reflexivity)) (ltac:(reflexivity))).
Defined.

(** No stored note has id ["q"]. *)
Lemma updateNote_missing_id_witness :
  Storage.updateNote true true "q" "new" 9%Z
    (Storage.mkStore (Some [Note.mk "a" "x" 1; Note.mk "b" "y" 2]) None)
  = (None, Storage.mkStore (Some [Note.mk "a" "x" 1; Note.mk "b" "y" 2]) None).
Proof.
  exact (updateNote_missing_id true true "q" "new" 9%Z
           (Storage.mkStore (Some [Note.mk "a" "x" 1; Note.mk "b" "y" 2]) None)
           (ltac:(reflexivity))).
Defined.
